(** * Reporting-Unittest: step reporting, status rollup and HTML report

    A shallow embedding of [reporting_unittest.py] (both generations kept in
    the repository: the package file [reporting_unittest/reporting_unittest.py]
    and the older top-level [reporting_unittest.py]) together with the
    properties of its specification.

    Conventions of the embedding:
    - a Python [str] is a [string] (bytes of its UTF-8 form), compared as
      Python compares (lexicographically by code, which UTF-8 preserves);
    - methods of a test case run in a state-and-exception monad over the pair
      (outside world, the case object); the world holds the file system, the
      console and the externally supplied browser driver;
    - [os.path] is the POSIX flavour ([posixpath]); the file system has no
      symbolic links, and the entry [..] is resolved lexically. *)

From Stdlib Require Import ZArith String Ascii List Lia.
From Stdlib Require Import DecimalString DecimalNat Decimal.
From Stdlib Require Import Sorting.Sorted Sorting.Permutation.
From stdpp Require Import base option gmap strings list fin_maps sets.

Local Open Scope Z_scope.

(** ** Python values and strings *)

Module Py.

(** The values that appear as test data and as operands of assertions. *)
Inductive PyVal :=
| PyNone
| PyBool (b : bool)
| PyInt (z : Z)
| PyStr (s : string).

(** [str(n)] for a natural number. *)
Definition str_nat (n : nat) : string :=
  NilEmpty.string_of_uint (Nat.to_uint n).

(** [str(z)] for an [int]. *)
Definition str_int (z : Z) : string :=
  if z <? 0 then "-" +:+ str_nat (Z.abs_nat z) else str_nat (Z.to_nat z).

(** [str(v)], which is also what an f-string field [{v}] renders. *)
Definition str (v : PyVal) : string :=
  match v with
  | PyNone => "None"
  | PyBool true => "True"
  | PyBool false => "False"
  | PyInt z => str_int z
  | PyStr s => s
  end.

(** [bool(v)]: truthiness. *)
Definition truth (v : PyVal) : bool :=
  match v with
  | PyNone => false
  | PyBool b => b
  | PyInt z => negb (z =? 0)
  | PyStr s => negb (String.eqb s "")
  end.

(** [first == second]; [bool] is a subclass of [int], so [True == 1]. *)
Definition equal (a b : PyVal) : bool :=
  match a, b with
  | PyNone, PyNone => true
  | PyBool x, PyBool y => Bool.eqb x y
  | PyBool x, PyInt y | PyInt y, PyBool x => (if x then 1 else 0) =? y
  | PyInt x, PyInt y => x =? y
  | PyStr x, PyStr y => String.eqb x y
  | _, _ => false
  end.

(** [first != second] on these values is the negation of [==]. *)
Definition not_equal (a b : PyVal) : bool := negb (equal a b).

(** [sep.join(rows)] *)
Fixpoint join (sep : string) (rows : list string) : string :=
  match rows with
  | [] => ""
  | [r] => r
  | r :: rs => r +:+ sep +:+ join sep rs
  end.

(** The double quote character, as a one-character string. *)
Definition dq : string := String (ascii_of_nat 34) "".

(** A line break of a triple-quoted literal followed by [n] spaces of source
    indentation. *)
Fixpoint spaces (n : nat) : string :=
  match n with
  | O => ""
  | S n' => String " " (spaces n')
  end.
Definition nl (n : nat) : string := String (ascii_of_nat 10) (spaces n).

(** Exceptions that the modelled code can raise. *)
Inductive Exn :=
| AssertionError
| TypeError
| NameError
| FileNotFoundError
| FileExistsError
| IsADirectoryError
| NotADirectoryError
| NoSuchElementException.

(** Result of running a statement: normal completion or a raised exception,
    in both cases with the state reached (effects that happened before a
    [raise] stay). *)
Inductive Res (S A : Type) :=
| Ok (a : A) (s : S)
| Raise (e : Exn) (s : S).
Arguments Ok {S A} a s.
Arguments Raise {S A} e s.

Definition M (S A : Type) : Type := S → Res S A.

Definition ret {S A} (a : A) : M S A := λ s, Ok a s.
Definition bind {S A B} (m : M S A) (k : A → M S B) : M S B :=
  λ s, match m s with
       | Ok a s' => k a s'
       | Raise e s' => Raise e s'
       end.
Definition raise {S A} (e : Exn) : M S A := λ s, Raise e s.
Definition get {S} : M S S := λ s, Ok s s.
Definition put {S} (s : S) : M S unit := λ _, Ok tt s.
Definition modify {S} (f : S → S) : M S unit := λ s, Ok tt (f s).

(** State reached, whatever the outcome. *)
Definition state_of {S A} (r : Res S A) : S :=
  match r with Ok _ s => s | Raise _ s => s end.

Definition returns {S A} (r : Res S A) : bool :=
  match r with Ok _ _ => true | Raise _ _ => false end.

(** Running a computation on a component of the state. *)
Definition zoom {S T A} (proj : S → T) (upd : T → S → S) (m : M T A) : M S A :=
  λ s, match m (proj s) with
       | Ok a t => Ok a (upd t s)
       | Raise e t => Raise e (upd t s)
       end.

End Py.

Global Instance M_ret {S} : MRet (Py.M S) := λ A, Py.ret.
Global Instance M_bind {S} : MBind (Py.M S) := λ A B k m, Py.bind m k.
Global Instance M_fmap {S} : FMap (Py.M S) :=
  λ A B f m, Py.bind m (λ a, Py.ret (f a)).
Global Instance PyVal_inhabited : Inhabited Py.PyVal := populate Py.PyNone.

(** ** The file system and [os.path] *)

Module OS.
Import Py.

(** What a file holds: raw bytes, or (for a [.zip]) the archive members in the
    order they were written, each under its archive name. *)
#[warnings="-register-all"] Inductive Content :=
| Bytes (s : string)
| Zip (members : list (string * Content)).

(** Files and directories are keyed by their absolute path, a list of
    components from the root. *)
Record FS := {
  files : gmap (list string) Content;
  dirs : gset (list string);
}.

(** [b.startswith('/')] and [a.endswith('/')] *)
Definition starts_with_sep (b : string) : bool :=
  match b with
  | String "/" _ => true
  | _ => false
  end.

Fixpoint ends_with_sep (a : string) : bool :=
  match a with
  | "" => false
  | String c "" => Ascii.eqb c "/"
  | String _ a' => ends_with_sep a'
  end.

(** [os.path.join(a, b)] of [posixpath]. *)
Definition pjoin (a b : string) : string :=
  if starts_with_sep b then b
  else if String.eqb a "" || ends_with_sep a then a +:+ b
  else a +:+ "/" +:+ b.

(** [s.split('/')]: the components of a path string. *)
Fixpoint split_sep (s : string) : list string :=
  match s with
  | "" => [""]
  | String c s' =>
      if Ascii.eqb c "/" then "" :: split_sep s'
      else match split_sep s' with
           | x :: xs => String c x :: xs
           | [] => [String c ""]
           end
  end.

(** One step of path resolution from the directory [at]. *)
Definition norm_step (at_ : list string) (c : string) : list string :=
  if String.eqb c "" || String.eqb c "." then at_
  else if String.eqb c ".." then removelast at_
  else at_ ++ [c].

(** The absolute path a path string denotes for a process whose current
    directory is [cwd]. *)
Definition resolve (cwd : list string) (s : string) : list string :=
  fold_left norm_step (split_sep s) (if starts_with_sep s then [] else cwd).

Definition parent (p : list string) : list string := removelast p.

Definition is_dir (fs : FS) (p : list string) : bool :=
  bool_decide (p = [] ∨ p ∈ dirs fs).
Definition is_file (fs : FS) (p : list string) : bool :=
  bool_decide (is_Some (files fs !! p)).

(** [q] lies strictly below the directory [r]. *)
Definition under (r q : list string) : Prop := r `prefix_of` q ∧ r ≠ q.
Global Instance under_dec r q : Decision (under r q).
Proof. unfold under. apply _. Defined.

(** The browser driver, an external collaborator: which locators it finds,
    and the image it delivers for the screen and for an element. *)
Definition WebElement := nat.

Record Driver := {
  find : string → string → option WebElement;
  screen_png : string;
  element_png : WebElement → string;
}.

(** Everything outside the Python objects. *)
Record World := {
  fs : FS;
  cwd : list string;
  driver : Driver;
  stdout : list string;
  logsink : list string;
  asctime : string;
  now : string;
}.

Definition set_fs (f : FS) (w : World) : World :=
  {| fs := f; cwd := cwd w; driver := driver w; stdout := stdout w;
     logsink := logsink w; asctime := asctime w; now := now w |}.

(** [print(line)] and [logging.debug(line)] *)
Definition print (line : string) : M World unit :=
  modify (λ w, {| fs := fs w; cwd := cwd w; driver := driver w;
                  stdout := stdout w ++ [line]; logsink := logsink w;
                  asctime := asctime w; now := now w |}).
Definition logdebug (line : string) : M World unit :=
  modify (λ w, {| fs := fs w; cwd := cwd w; driver := driver w;
                  stdout := stdout w; logsink := logsink w ++ [line];
                  asctime := asctime w; now := now w |}).

(** [os.path.exists(s)] *)
Definition exists_ (w : World) (s : string) : bool :=
  negb (String.eqb s "") &&
  (is_dir (fs w) (resolve (cwd w) s) || is_file (fs w) (resolve (cwd w) s)).

(** [os.mkdir(s)] *)
Definition mkdir (s : string) : M World unit := λ w,
  let p := resolve (cwd w) s in
  if String.eqb s "" then Raise FileNotFoundError w
  else if is_dir (fs w) p || is_file (fs w) p then Raise FileExistsError w
  else if negb (is_dir (fs w) (parent p)) then Raise FileNotFoundError w
  else Ok tt (set_fs {| files := files (fs w); dirs := {[p]} ∪ dirs (fs w) |} w).

(** [os.remove(s)] *)
Definition remove (s : string) : M World unit := λ w,
  let p := resolve (cwd w) s in
  if String.eqb s "" then Raise FileNotFoundError w
  else if is_dir (fs w) p then Raise IsADirectoryError w
  else if negb (is_file (fs w) p) then Raise FileNotFoundError w
  else Ok tt (set_fs {| files := delete p (files (fs w)); dirs := dirs (fs w) |} w).

(** [open(s, 'w')], the writes, and the close that ends the [with] block:
    the file is created or truncated and receives [c]. *)
Definition write_file (s : string) (c : Content) : M World unit := λ w,
  let p := resolve (cwd w) s in
  if String.eqb s "" then Raise FileNotFoundError w
  else if is_dir (fs w) p then Raise IsADirectoryError w
  else if negb (is_dir (fs w) (parent p)) then Raise FileNotFoundError w
  else Ok tt (set_fs {| files := <[p := c]> (files (fs w)); dirs := dirs (fs w) |} w).

(** Reading a file, as [ZipFile.write] does with the path it is given. *)
Definition read_file (s : string) : M World Content := λ w,
  match files (fs w) !! resolve (cwd w) s with
  | Some c => if String.eqb s "" then Raise FileNotFoundError w else Ok c w
  | None => Raise FileNotFoundError w
  end.

(** [shutil.rmtree(s)]: the directory and all that lies below it go. *)
Definition rmtree (s : string) : M World unit := λ w,
  let r := resolve (cwd w) s in
  if String.eqb s "" then Raise FileNotFoundError w
  else if is_file (fs w) r then Raise NotADirectoryError w
  else if negb (is_dir (fs w) r) then Raise FileNotFoundError w
  else Ok tt (set_fs
         {| files := filter (λ kv, ¬ r `prefix_of` kv.1) (files (fs w));
            dirs := filter (λ q, ¬ r `prefix_of` q) (dirs (fs w)) |} w).

(** The path strings that the loop
    [for root, _, files in walk(top): for filename in files: pjoin(root, filename)]
    produces: one per file below [top], built from [top] by joining the
    directory names on the way down and the file name.  The order in which a
    directory is listed is the operating system's own; the model fixes one. *)
Definition walk_name (top : string) (rel : list string) : string :=
  fold_left pjoin rel top.

Definition walk_files (w : World) (top : string) : list string :=
  let r := resolve (cwd w) top in
  if String.eqb top "" || negb (is_dir (fs w) r) then []
  else (λ kv, walk_name top (drop (length r) kv.1)) <$>
         map_to_list (filter (λ kv, under r kv.1) (files (fs w))).

End OS.

(** ** Step records *)

(** The two generations of the module kept in the repository. *)
Inductive Generation :=
| Gen1   (* reporting_unittest.py, the older file *)
| Gen2.  (* reporting_unittest/reporting_unittest.py *)

Module _TestEvent.
Record t := {
  eventDescription : string;
  warning : bool;   (* WARNING = true, DONE = false *)
  dataString : option string;
  imagePath : option string;
  imageEmbed : bool;
}.
(** The attributes set by [__post_init__]. *)
Definition statusColor (e : t) : string :=
  if warning e then "yellow" else "antiquewhite".
Definition statusString (e : t) : string :=
  if warning e then "WARNING" else "DONE".
End _TestEvent.

Module _TestStep.
Record t := {
  stepDescription : string;
  expectedBehavior : string;
  failureBehavior : string;
  testStatus : bool;   (* PASS = true, FAIL = false *)
  dataString : option string;
  imagePath : option string;
  imageEmbed : bool;
}.
(** The attributes set by [__post_init__]. *)
Definition statusColor (s : t) : string :=
  if testStatus s then "green" else "red".
Definition statusString (s : t) : string :=
  if testStatus s then "PASS" else "FAIL".
Definition actualBehavior (s : t) : string :=
  if testStatus s then expectedBehavior s else failureBehavior s.
End _TestStep.

(** An element of [self.steps]. *)
Inductive StepRecord :=
| Event (e : _TestEvent.t)
| Step (s : _TestStep.t).

(** ** ReportingTestCase *)

Module ReportingTestCase.
Import Py OS.

Record t := {
  data : gmap string PyVal;   (* the keyword arguments of the constructor *)
  testCaseID : string;
  testCaseDescription : string;
  status : Z;   (* 0 = FAIL, 1 = PASS, other = WARNING *)
  debugPrint : bool;
  debugLog : bool;
  steps : list StepRecord;
}.

(** [__init__]; the older generation has no debug switches, which is the
    same as both being off. *)
Definition init (g : Generation) (testCaseID testCaseDescription : string)
    (debugPrint debugLog : bool) (kwargs : gmap string PyVal) : t :=
  {| data := kwargs;
     testCaseID := testCaseID;
     testCaseDescription := testCaseDescription;
     status := 1;
     debugPrint := match g with Gen1 => false | Gen2 => debugPrint end;
     debugLog := match g with Gen1 => false | Gen2 => debugLog end;
     steps := [] |}.

(** The state a method runs in. *)
Record St := { world : World; self : t }.

Definition liftW {A} (m : M World A) : M St A :=
  zoom world (λ w s, {| world := w; self := self s |}) m.
Definition set_self (f : t → t) : M St unit :=
  modify (λ s, {| world := world s; self := f (self s) |}).

(** The [element] argument of a report call. *)
Inductive Element :=
| ElDict (by_ value : string)    (* keyword arguments for find_element *)
| ElTuple (by_ value : string)   (* positional arguments for find_element *)
| ElWeb (e : WebElement)         (* a live element *)
| ElStr (s : string).            (* anything else: the whole screen *)

(** The [data] argument of a report call. *)
Inductive DataArg :=
| DataNone
| DataStr (s : string)
| DataList (names : list string).

(** [driverObj.find_element(by, value)] *)
Definition find_element (by_ value : string) : M World WebElement := λ w,
  match find (driver w) by_ value with
  | Some e => Ok e w
  | None => Raise NoSuchElementException w
  end.

(** Selenium's [save_screenshot] and [WebElement.screenshot]: the image is
    written to the path; an [OSError] on the way is swallowed (the call then
    returns [False], which the caller here ignores). *)
Definition save_png (png : string) (path : string) : M World unit := λ w,
  match write_file path (Bytes png) w with
  | Ok _ w' => Ok tt w'
  | Raise _ w' => Ok tt w'
  end.

(** The file name of a screenshot. *)
Definition screenshot_name (g : Generation) (n : nat) (description : string)
    : string :=
  match g with
  | Gen1 => description +:+ ".png"
  | Gen2 => str_nat (n + 1) +:+ " - " +:+ description +:+ ".png"
  end.

Definition _screenshot (g : Generation) (element : Element)
    (description : string) : M St string :=
  c ← (λ s, Ok (self s) s);
  let outFolder := pjoin ".screenshots" (testCaseID c) in
  ex ← liftW (λ w, Ok (exists_ w outFolder) w);
  (if negb ex then liftW (mkdir outFolder) else mret tt);;
  let imagePath :=
    pjoin outFolder (screenshot_name g (length (steps c)) description) in
  match element with
  | ElDict by_ value =>
      match g with
      | Gen1 => raise NameError   (* names [elementIDs], which is not bound *)
      | Gen2 => liftW (e ← find_element by_ value;
                       w ← get; save_png (element_png (driver w) e) imagePath)
      end
  | ElTuple by_ value =>
      match g with
      | Gen1 => liftW (w ← get; save_png (screen_png (driver w)) imagePath)
      | Gen2 => liftW (e ← find_element by_ value;
                       w ← get; save_png (element_png (driver w) e) imagePath)
      end
  | ElWeb e => liftW (w ← get; save_png (element_png (driver w) e) imagePath)
  | ElStr _ => liftW (w ← get; save_png (screen_png (driver w)) imagePath)
  end;;
  mret imagePath.

Definition _conditionalDebugPrint (msg : string) : M St unit :=
  s ← get;
  if debugPrint (self s)
  then liftW (print ("[" +:+ asctime (world s) +:+ "] " +:+ msg))
  else mret tt.

Definition _conditionalLog (msg : string) : M St unit :=
  s ← get;
  if debugLog (self s)
  then liftW (logdebug ("[" +:+ asctime (world s) +:+ "] " +:+ msg))
  else mret tt.

(** The separator of the data rows. *)
Definition row_sep (g : Generation) : string :=
  match g with
  | Gen1 => String (ascii_of_nat 10) ""
  | Gen2 => "<br>"
  end.

Definition _makeDataString (g : Generation) (c : t) (data_ : DataArg) : string :=
  match data_ with
  | DataList names =>
      let filteredRows := filter (λ a, a ∈ dom (data c)) names in
      let rows :=
        (λ k, k +:+ ": '" +:+ str (data c !!! k) +:+ "'") <$> filteredRows in
      join (row_sep g) rows
  | DataStr s => s
  | DataNone => ""
  end.

Definition statusColor (c : t) : string :=
  if status c =? 0 then "red"
  else if status c =? 1 then "green"
  else "yellow".

Definition statusString (c : t) : string :=
  if status c =? 0 then "FAIL"
  else if status c =? 1 then "PASS"
  else "WARNING".

Definition set_status (z : Z) (c : t) : t :=
  {| data := data c; testCaseID := testCaseID c;
     testCaseDescription := testCaseDescription c; status := z;
     debugPrint := debugPrint c; debugLog := debugLog c; steps := steps c |}.

Definition append_step (r : StepRecord) (c : t) : t :=
  {| data := data c; testCaseID := testCaseID c;
     testCaseDescription := testCaseDescription c; status := status c;
     debugPrint := debugPrint c; debugLog := debugLog c;
     steps := steps c ++ [r] |}.

(** Log an untested step. *)
Definition reportEvent (g : Generation) (eventDescription : string)
    (warning : bool) (data_ : DataArg) (imageEmbed : bool)
    (element : option Element) : M St unit :=
  imagePath ← match element return M St (option string) with
              | Some el => Some <$> _screenshot g el eventDescription
              | None => mret None
              end;
  s ← get;
  let dataString := _makeDataString g (self s) data_ in
  match g return M St unit with
  | Gen1 => mret tt
  | Gen2 => _conditionalDebugPrint eventDescription;;
            _conditionalLog eventDescription
  end;;
  set_self (append_step (Event
    {| _TestEvent.eventDescription := eventDescription;
       _TestEvent.warning := warning;
       _TestEvent.dataString := Some dataString;
       _TestEvent.imagePath := imagePath;
       _TestEvent.imageEmbed := imageEmbed |}));;
  s ← get;
  if warning && (status (self s) =? 1)
  then set_self (set_status 2)
  else mret tt.

(** Add a new test step to the report. *)
Definition reportStep (g : Generation)
    (stepDescription expectedBehavior failureBehavior : string)
    (testStatus : bool) (data_ : DataArg) (imageEmbed : bool)
    (element : option Element) : M St unit :=
  imagePath ← match element return M St (option string) with
              | Some el => Some <$> _screenshot g el stepDescription
              | None => mret None
              end;
  s ← get;
  let dataString := _makeDataString g (self s) data_ in
  match g return M St unit with
  | Gen1 => mret tt
  | Gen2 => _conditionalDebugPrint stepDescription;;
            _conditionalLog stepDescription
  end;;
  set_self (append_step (Step
    {| _TestStep.stepDescription := stepDescription;
       _TestStep.expectedBehavior := expectedBehavior;
       _TestStep.failureBehavior := failureBehavior;
       _TestStep.testStatus := testStatus;
       _TestStep.dataString := Some dataString;
       _TestStep.imagePath := imagePath;
       _TestStep.imageEmbed := imageEmbed |}));;
  s ← get;
  if negb testStatus && negb (status (self s) =? 0)
  then set_self (set_status 0)
  else mret tt.

(** Calling a method with keyword arguments: a keyword that is not a
    parameter of the callee is a [TypeError], raised before the body runs. *)
Definition call_kw {S A} (params kws : list string) (body : M S A) : M S A :=
  if forallb (λ k, bool_decide (k ∈ params)) kws then body
  else raise TypeError.

(** The parameters of [reportStep], the same in both generations. *)
Definition reportStep_params : list string :=
  ["stepDescription"; "expectedBehavior"; "failureBehavior"; "testStatus";
   "data"; "imageEmbed"; "element"].

(** The keyword under which the assertion methods forward their last
    argument to [reportStep]. *)
Definition forwarded_keyword (g : Generation) : string :=
  match g with
  | Gen1 => "elementIDs"
  | Gen2 => "element"
  end.

(** [self.reportStep(stepDescription=..., ..., <keyword>=element)] as the
    four assertion methods write it. *)
Definition call_reportStep (g : Generation)
    (stepDescription expectedBehavior failureBehavior : string)
    (testStatus : bool) (data_ : DataArg) (imageEmbed : bool)
    (element : option Element) : M St unit :=
  call_kw reportStep_params
    ["stepDescription"; "expectedBehavior"; "failureBehavior"; "testStatus";
     "data"; "imageEmbed"; forwarded_keyword g]
    (reportStep g stepDescription expectedBehavior failureBehavior testStatus
       data_ imageEmbed
       (if bool_decide (forwarded_keyword g = "element") then element
        else None)).

(** The assertions of [unittest.TestCase] that [super()] reaches. *)
Module TestCase.
Definition assertTrue {S} (expr : PyVal) : M S unit :=
  if negb (truth expr) then raise AssertionError else mret tt.
Definition assertFalse {S} (expr : PyVal) : M S unit :=
  if truth expr then raise AssertionError else mret tt.
Definition assertEqual {S} (first second : PyVal) : M S unit :=
  if negb (equal first second) then raise AssertionError else mret tt.
Definition assertNotEqual {S} (first second : PyVal) : M S unit :=
  if negb (not_equal first second) then raise AssertionError else mret tt.
End TestCase.

(** Test condition, halt on fail. *)
Definition assertTrue (g : Generation) (expr : PyVal)
    (stepDescription expectedBehavior failureBehavior : string)
    (data_ : DataArg) (imageEmbed : bool) (element : option Element)
    : M St unit :=
  let testStatus := truth expr in
  call_reportStep g stepDescription expectedBehavior failureBehavior
    testStatus data_ imageEmbed element;;
  TestCase.assertTrue expr.

(** Test condition, halt on equal fail. *)
Definition assertEqual (g : Generation) (first second : PyVal)
    (stepDescription expectedBehavior failureBehavior : string)
    (data_ : DataArg) (imageEmbed : bool) (element : option Element)
    : M St unit :=
  let testStatus := equal first second in
  call_reportStep g stepDescription expectedBehavior failureBehavior
    testStatus data_ imageEmbed element;;
  TestCase.assertEqual first second.

(** Test condition, halt on negative fail. *)
Definition assertFalse (g : Generation) (expr : PyVal)
    (stepDescription expectedBehavior failureBehavior : string)
    (data_ : DataArg) (imageEmbed : bool) (element : option Element)
    : M St unit :=
  let testStatus := negb (truth expr) in
  call_reportStep g stepDescription expectedBehavior failureBehavior
    testStatus data_ imageEmbed element;;
  TestCase.assertFalse expr.

(** Test condition, halt on unequal fail. *)
Definition assertNotEqual (g : Generation) (first second : PyVal)
    (stepDescription expectedBehavior failureBehavior : string)
    (data_ : DataArg) (imageEmbed : bool) (element : option Element)
    : M St unit :=
  let testStatus := negb (equal first second) in
  call_reportStep g stepDescription expectedBehavior failureBehavior
    testStatus data_ imageEmbed element;;
  TestCase.assertNotEqual first second.

(** *** Test bodies

    The body of a test method, as far as the report is concerned, is a
    sequence of calls into the reporting interface; it runs until a call
    raises. *)
Inductive Call :=
| CallEvent (eventDescription : string) (warning : bool) (data_ : DataArg)
    (imageEmbed : bool) (element : option Element)
| CallStep (stepDescription expectedBehavior failureBehavior : string)
    (testStatus : bool) (data_ : DataArg) (imageEmbed : bool)
    (element : option Element)
| CallAssertTrue (expr : PyVal)
    (stepDescription expectedBehavior failureBehavior : string)
    (data_ : DataArg) (imageEmbed : bool) (element : option Element)
| CallAssertFalse (expr : PyVal)
    (stepDescription expectedBehavior failureBehavior : string)
    (data_ : DataArg) (imageEmbed : bool) (element : option Element)
| CallAssertEqual (first second : PyVal)
    (stepDescription expectedBehavior failureBehavior : string)
    (data_ : DataArg) (imageEmbed : bool) (element : option Element)
| CallAssertNotEqual (first second : PyVal)
    (stepDescription expectedBehavior failureBehavior : string)
    (data_ : DataArg) (imageEmbed : bool) (element : option Element).

Definition call (g : Generation) (c : Call) : M St unit :=
  match c with
  | CallEvent d w da ie el => reportEvent g d w da ie el
  | CallStep d e f ts da ie el => reportStep g d e f ts da ie el
  | CallAssertTrue x d e f da ie el => assertTrue g x d e f da ie el
  | CallAssertFalse x d e f da ie el => assertFalse g x d e f da ie el
  | CallAssertEqual a b d e f da ie el => assertEqual g a b d e f da ie el
  | CallAssertNotEqual a b d e f da ie el => assertNotEqual g a b d e f da ie el
  end.

Fixpoint run_body (g : Generation) (body : list Call) : M St unit :=
  match body with
  | [] => mret tt
  | c :: rest => call g c;; run_body g rest
  end.

(** The state after the calls were made one after the other, whether each
    returned or raised (a caller may catch an exception and go on). *)
Definition after (g : Generation) (calls : list Call) (s : St) : St :=
  foldl (λ s c, state_of (call g c s)) s calls.

End ReportingTestCase.

(** ** ReportingTestResult *)

Module ReportingTestResult.
Import Py.

(** Each bucket holds pairs of a test and its formatted traceback. *)
Record t := {
  successes : list (ReportingTestCase.t * string);
  failures : list (ReportingTestCase.t * string);
  errors : list (ReportingTestCase.t * string);
}.

(** Set up results, keep successes too. *)
Definition init : t := {| successes := []; failures := []; errors := [] |}.

(** Append a success record. *)
Definition addSuccess (test : ReportingTestCase.t) (r : t) : t :=
  {| successes := successes r ++ [(test, "")];
     failures := failures r; errors := errors r |}.

(** [TestResult.addFailure] and [TestResult.addError] of [unittest]. *)
Definition addFailure (test : ReportingTestCase.t) (tb : string) (r : t) : t :=
  {| successes := successes r;
     failures := failures r ++ [(test, tb)]; errors := errors r |}.
Definition addError (test : ReportingTestCase.t) (tb : string) (r : t) : t :=
  {| successes := successes r;
     failures := failures r; errors := errors r ++ [(test, tb)] |}.

End ReportingTestResult.

(** ** ReportingTestSuite *)

Module ReportingTestSuite.
Import Py OS.
Module C := ReportingTestCase.
Module R := ReportingTestResult.

(** [list.sort(key=...)]: Python's sort is stable and compares keys with
    [<] only.  Insertion from the right end keeps equal keys in their
    original order. *)
Section sort.
Context {A : Type} (key : A → string).

Fixpoint insert_by (x : A) (l : list A) : list A :=
  match l with
  | [] => [x]
  | y :: l' =>
      if String.ltb (key y) (key x) then y :: insert_by x l'
      else x :: l
  end.

Definition sort_by (l : list A) : list A := foldr insert_by [] l.
End sort.

Record t := {
  testName : string;
  testerName : string;
  outPath : string;
  screenshot_path : string;
  tests : list (C.t * list C.Call);   (* the cases added, with their bodies *)
}.

(** Set up test suite. *)
Definition init (testName testerName : string) (outPath : option string)
    : M World t :=
  let outPath := match outPath with Some p => p | None => testName end in
  w ← get;
  (if negb (exists_ w outPath) then mkdir outPath else mret tt);;
  let screenshot_path := pjoin outPath ".screenshots" in
  w ← get;
  (if negb (exists_ w screenshot_path) then mkdir screenshot_path
   else mret tt);;
  mret {| testName := testName; testerName := testerName;
          outPath := outPath; screenshot_path := screenshot_path;
          tests := [] |}.

Definition addTest (c : C.t) (body : list C.Call) (s : t) : t :=
  {| testName := testName s; testerName := testerName s;
     outPath := outPath s; screenshot_path := screenshot_path s;
     tests := tests s ++ [(c, body)] |}.

(** *** The HTML document *)

(** What the [outfile.write] calls of one [with open(...)] block leave in the
    file: the chunks in the order written. *)
Definition written (chunks : list string) : string :=
  foldr String.append "" chunks.

Definition tableStyleString : string :=
  "style=" +:+ dq +:+ "width: 1000px;margin: 0;" +:+ nl 20 +:+
  "padding: 0;table-layout: fixed;border-collapse: collapse;" +:+ nl 20 +:+
  "font: 11px/1.4 Trebuchet MS;" +:+ dq.

Definition tableHeaderStyleString : string :=
  "style=" +:+ dq +:+ "margin: 0;padding: 0;" +:+ dq.

(** test report header *)
Definition report_header (testName now testerName : string) : string :=
  "<h3>" +:+ testName +:+ nl 16 +:+ "- run " +:+ now +:+ nl 16 +:+
  "by " +:+ testerName +:+ "</h3>".

(** test case description: table opening and the three column heads *)
Definition case_table_open : string :=
  "<table " +:+ tableStyleString +:+ ">" +:+ nl 20 +:+
  "<thead " +:+ tableHeaderStyleString +:+ ">" +:+ nl 20 +:+
  "<tr " +:+ tableHeaderStyleString +:+ ">".

Definition case_head_cell (text : string) (width : nat) : string :=
  "<th style=" +:+ dq +:+ "width: " +:+ str_nat width +:+
  "px;margin: 0;padding: 6px;" +:+ nl 24 +:+
  "background: #333;color: white;font-weight: bold;" +:+ nl 24 +:+
  "border: 1px solid #ccc;text-align: auto;" +:+ dq +:+ ">" +:+ nl 24 +:+
  text +:+ "</th>".

Definition case_value_cell (text : string) (width : nat) : string :=
  "<th style=" +:+ dq +:+ "width: " +:+ str_nat width +:+
  "px;margin: 0;padding: 6px;" +:+ nl 24 +:+
  "background: white;color: black;font-weight: bold;" +:+ nl 24 +:+
  "border: 1px solid #ccc;text-align: auto;" +:+ dq +:+ ">" +:+ nl 24 +:+
  text +:+ "</th>".

Definition case_status_cell (c : C.t) : string :=
  "<th style=" +:+ dq +:+ "width: 200px;margin: 0;padding: 6px;" +:+ nl 20 +:+
  "background: " +:+ C.statusColor c +:+ ";color: black;" +:+ nl 20 +:+
  "font-weight: bold;border: 1px solid #ccc;" +:+ nl 20 +:+
  "text-align: auto;" +:+ dq +:+ ">" +:+ C.statusString c +:+ "</th>".

(** steps header *)
Definition steps_table_open : string :=
  "<details><summary>Step Details</summary>" +:+ nl 20 +:+
  "<table " +:+ tableStyleString +:+ ">" +:+ nl 20 +:+
  "<thead " +:+ tableHeaderStyleString +:+ ">" +:+ nl 20 +:+
  "<tr " +:+ tableHeaderStyleString +:+ ">".

Definition steps_head_cell (text : string) (width : nat) : string :=
  "<th style=" +:+ dq +:+ "width: " +:+ str_nat width +:+
  "px;margin: 0;" +:+ nl 24 +:+
  "padding: 6px;background: #333;color: white;" +:+ nl 24 +:+
  "font-weight: bold;border: 1px solid #ccc;" +:+ nl 24 +:+
  "text-align: auto;" +:+ dq +:+ ">" +:+ text +:+ "</th>".

(** test steps *)
Definition step_number_cell (i : nat) : string :=
  "<tr><th style=" +:+ dq +:+ "width: 50px;margin: 0;padding: 6px;" +:+
  nl 24 +:+ "background: white;color: black;font-weight: bold;" +:+ nl 24 +:+
  "border: 1px solid #ccc;text-align: auto;" +:+ dq +:+ ">" +:+ str_nat i +:+
  "</th>".

Definition step_text_cell (w : nat) (t : string) : string :=
  "<th style=" +:+ dq +:+ "width: " +:+ str_nat w +:+ "px;margin: 0;" +:+
  nl 32 +:+ "padding: 6px;background: white;color: black;" +:+ nl 32 +:+
  "font-weight: bold;border: 1px solid #ccc;" +:+ nl 32 +:+
  "text-align: auto;" +:+ dq +:+ ">" +:+ t +:+ "</th>".

Definition step_status_cell (statusColor statusString : string) : string :=
  "<th style=" +:+ dq +:+ "width: 50px;margin: 0;padding:" +:+ nl 24 +:+
  "6px;background: " +:+ statusColor +:+ ";color: black;" +:+ nl 24 +:+
  "font-weight: bold;border: 1px solid #ccc;" +:+ nl 24 +:+
  "text-align: auto;" +:+ dq +:+ ">" +:+ statusString +:+ "</th>".

(** An f-string field holding [None] renders as the text None. *)
Definition fmt_opt (o : option string) : string :=
  match o with Some s => s | None => "None" end.

Definition step_data_cell (dataString : option string) : string :=
  "<th style=" +:+ dq +:+ "width: 250px;margin: 0;padding: 6px;" +:+ nl 24 +:+
  "background: white;color: black;" +:+ nl 24 +:+
  "font-weight: bold;border: 1px solid #ccc;" +:+ nl 24 +:+
  "text-align: auto;" +:+ dq +:+ ">" +:+ fmt_opt dataString +:+ "</th>".

Definition step_image_cell (imagePath : option string) (imageEmbed : bool)
    : string :=
  match imagePath with
  | None =>
      "<th style=" +:+ dq +:+ "width: 400px;margin: 0;padding: 6px;" +:+
      nl 28 +:+ "background: white;color: black;" +:+ nl 28 +:+
      "font-weight: bold;border: 1px solid #ccc;" +:+ nl 28 +:+
      "text-align: auto;" +:+ dq +:+ ">N/A</th>"
  | Some path =>
      if imageEmbed then
        "<th style=" +:+ dq +:+ "width: 400px;margin: 0;" +:+ nl 32 +:+
        "padding: 6px;background: white;" +:+ nl 32 +:+
        "color: black;font-weight: bold;" +:+ nl 32 +:+
        "border: 1px solid #ccc;text-align: auto;" +:+ nl 32 +:+
        dq +:+ "><image src=" +:+ dq +:+ path +:+ dq +:+ ">" +:+ nl 32 +:+
        "</image></th>"
      else
        "<th style=" +:+ dq +:+ "width: 400px;margin: 0;" +:+ nl 32 +:+
        "padding: 6px;background: white;" +:+ nl 32 +:+
        "color: black;font-weight: bold;" +:+ nl 32 +:+
        "border: 1px solid #ccc;text-align: auto;" +:+ nl 32 +:+
        dq +:+ "><a href=" +:+ dq +:+ path +:+ nl 32 +:+
        dq +:+ " target=" +:+ dq +:+ "_blank" +:+ dq +:+ ">Link</a></th>"
  end.

(** The writes of one turn of [for i, step in enumerate(case.steps, start=1)]. *)
Definition step_row (i : nat) (step : StepRecord) : list string :=
  [step_number_cell i] ++
  match step with
  | Step s =>
      zip_with step_text_cell [200; 300; 300]%nat
        [_TestStep.stepDescription s; _TestStep.expectedBehavior s;
         _TestStep.actualBehavior s]
  | Event e =>
      zip_with step_text_cell [300; 200; 300]%nat
        [_TestEvent.eventDescription e; ""; ""]
  end ++
  match step with
  | Step s =>
      [step_status_cell (_TestStep.statusColor s) (_TestStep.statusString s);
       step_data_cell (_TestStep.dataString s);
       step_image_cell (_TestStep.imagePath s) (_TestStep.imageEmbed s)]
  | Event e =>
      [step_status_cell (_TestEvent.statusColor e) (_TestEvent.statusString e);
       step_data_cell (_TestEvent.dataString e);
       step_image_cell (_TestEvent.imagePath e) (_TestEvent.imageEmbed e)]
  end ++
  ["</tr>"].

(** The writes of one turn of [for case in allTestCases]. *)
Definition case_block (c : C.t) : list string :=
  [case_table_open] ++
  zip_with case_head_cell ["TCID"; "Description"; "Status"]
    [100; 700; 200]%nat ++
  ["</tr></thead><tbody><tr>"] ++
  zip_with case_value_cell [C.testCaseID c; C.testCaseDescription c]
    [100; 700]%nat ++
  [case_status_cell c] ++
  ["</tr></tbody></table>"] ++
  [steps_table_open] ++
  zip_with steps_head_cell
    ["Step #"; "Description"; "Expected Behavior"; "Actual Behavior";
     "Status"; "Test Data"; "Screenshot"]
    [50; 200; 300; 300; 50; 250; 400]%nat ++
  ["</tr></thead>"] ++
  ["<tbody " +:+ tableHeaderStyleString +:+ ">"] ++
  mjoin (imap (λ i step, step_row (i + 1) step) (C.steps c)) ++
  ["</tbody>"] ++
  ["</table></details><br><br>"].

(** Everything written between opening and closing the report file. *)
Definition document (testName testerName now : string)
    (allTestCases : list C.t) : string :=
  written (
    ["<html><body>"] ++
    [report_header testName now testerName] ++
    mjoin (case_block <$> allTestCases) ++
    ["</body></html>"]).

(** The cases in the order the report shows them. *)
Definition allTestCases (resultObj : R.t) : list C.t :=
  let succs := fst <$> R.successes resultObj in
  let fails := fst <$> R.failures resultObj in
  let errors := fst <$> R.errors resultObj in
  sort_by C.testCaseID (succs ++ fails ++ errors).

(** *** Archiving *)

(** The state inside a [with ZipFile(...) as zf] block: the world, and the
    members written to [zf] so far, each under the path given to
    [zf.write] (the archive stores that path normalised and without a
    leading separator). *)
Record ZipSt := { zworld : World; zmembers : list (string * Content) }.

Definition liftZ {A} (m : M World A) : M ZipSt A :=
  zoom zworld (λ w s, {| zworld := w; zmembers := zmembers s |}) m.

(** [zf.write(p)] *)
Definition zf_write (p : string) : M ZipSt unit :=
  c ← liftZ (read_file p);
  modify (λ s, {| zworld := zworld s; zmembers := zmembers s ++ [(p, c)] |}).

(** [for p in paths: zf.write(p)] *)
Fixpoint zf_write_all (paths : list string) : M ZipSt unit :=
  match paths with
  | [] => mret tt
  | p :: rest => zf_write p;; zf_write_all rest
  end.

(** Closing the archive puts the members into the file that was opened,
    if it is still there. *)
Definition zf_close (zipPath : string) (s : ZipSt) : World :=
  let w := zworld s in
  let p := resolve (cwd w) zipPath in
  if is_file (fs w) p
  then set_fs {| files := <[p := Zip (zmembers s)]> (files (fs w));
                 dirs := dirs (fs w) |} w
  else w.

(** [with ZipFile(zipPath, 'w') as zf: block]: the file is created at entry
    and closed at exit, also when the block raises. *)
Definition with_ZipFile (zipPath : string) (block : M ZipSt unit)
    : M World unit :=
  write_file zipPath (Zip []);;
  ((λ w, match block {| zworld := w; zmembers := [] |} with
         | Ok _ s => Ok tt (zf_close zipPath s)
         | Raise e s => Raise e (zf_close zipPath s)
         end) : M World unit).

(** *** writeReport and run *)

Definition writeReport (s : t) (resultObj : R.t) (zipReport : bool)
    : M World unit :=
  let allTestCases := allTestCases resultObj in
  let filePath := pjoin (outPath s) (testName s +:+ ".html") in
  w ← get;
  (if exists_ w filePath then remove filePath else mret tt);;
  w ← get;
  write_file filePath
    (Bytes (document (testName s) (testerName s) (now w) allTestCases));;
  if zipReport then
    with_ZipFile (pjoin (outPath s) (testName s +:+ ".zip")) (
      liftZ (print ("screenshot path: " +:+ screenshot_path s));;
      z ← get;
      let paths := walk_files (zworld z) (screenshot_path s) ++ [filePath] in
      zf_write_all paths;;
      liftZ (rmtree (screenshot_path s));;
      liftZ (remove filePath))
  else mret tt.

(** The traceback text kept next to a failed or errored test. *)
Definition format_exc (e : Exn) : string :=
  match e with
  | AssertionError => "AssertionError"
  | TypeError => "TypeError"
  | NameError => "NameError"
  | FileNotFoundError => "FileNotFoundError"
  | FileExistsError => "FileExistsError"
  | IsADirectoryError => "IsADirectoryError"
  | NotADirectoryError => "NotADirectoryError"
  | NoSuchElementException => "NoSuchElementException"
  end.

(** [TestCase.run] of [unittest] on one case: the body runs; an
    [AssertionError] is a failure, any other exception an error. *)
Definition run_test (g : Generation) (wr : World * R.t)
    (test : C.t * list C.Call) : World * R.t :=
  match C.run_body g test.2 {| C.world := wr.1; C.self := test.1 |} with
  | Ok _ st => (C.world st, R.addSuccess (C.self st) wr.2)
  | Raise AssertionError st =>
      (C.world st, R.addFailure (C.self st) (format_exc AssertionError) wr.2)
  | Raise e st => (C.world st, R.addError (C.self st) (format_exc e) wr.2)
  end.

(** [TestSuite.run]: the cases run in the order they were added. *)
Definition TestSuite_run (g : Generation) (s : t) (result : R.t)
    : M World R.t := λ w,
  let wr := foldl (run_test g) (w, result) (tests s) in
  Ok wr.2 wr.1.

(** Run test suite, write report.  The older generation has no [zipReport]
    and never archives. *)
Definition run (g : Generation) (s : t) (result : R.t) (zipReport : bool)
    : M World R.t :=
  resultObj ← TestSuite_run g s result;
  writeReport s resultObj
    (match g with Gen1 => false | Gen2 => zipReport end);;
  mret resultObj.

End ReportingTestSuite.

(** ** Vocabulary of the specification *)

Module Spec.
Import Py OS.
Module C := ReportingTestCase.

(** Position of a status on the precedence PASS -> WARNING -> FAIL. *)
Definition rank (status : Z) : nat :=
  if status =? 1 then 0%nat else if status =? 0 then 2%nat else 1%nat.

(** The outcomes that count for the rollup. *)
Definition is_report (c : C.Call) : bool :=
  match c with
  | C.CallEvent _ _ _ _ _ | C.CallStep _ _ _ _ _ _ _ => true
  | _ => false
  end.
Definition is_failing_step (c : C.Call) : bool :=
  match c with
  | C.CallStep _ _ _ testStatus _ _ _ => negb testStatus
  | _ => false
  end.
Definition is_warning_event (c : C.Call) : bool :=
  match c with
  | C.CallEvent _ warning _ _ _ => warning
  | _ => false
  end.

(** The status the specification assigns to a collection of outcomes:
    FAIL if a step failed, else WARNING if an event warned, else PASS. *)
Definition rollup (calls : list C.Call) : Z :=
  if existsb is_failing_step calls then 0
  else if existsb is_warning_event calls then 2
  else 1.

(** The same verdict read off the recorded steps. *)
Definition is_failed_record (r : StepRecord) : bool :=
  match r with
  | Step st => negb (_TestStep.testStatus st)
  | Event _ => false
  end.
Definition is_warning_record (r : StepRecord) : bool :=
  match r with
  | Event e => _TestEvent.warning e
  | Step _ => false
  end.
Definition rollup_records (steps : list StepRecord) : Z :=
  if existsb is_failed_record steps then 0
  else if existsb is_warning_record steps then 2
  else 1.

(** The four assertion methods, their predicates and their calls. *)
Inductive Assertion :=
| AssertTrue (expr : PyVal)
| AssertFalse (expr : PyVal)
| AssertEqual (first second : PyVal)
| AssertNotEqual (first second : PyVal).

Definition predicate (a : Assertion) : bool :=
  match a with
  | AssertTrue expr => truth expr
  | AssertFalse expr => negb (truth expr)
  | AssertEqual first second => equal first second
  | AssertNotEqual first second => negb (equal first second)
  end.

Definition assertion_call (a : Assertion)
    (stepDescription expectedBehavior failureBehavior : string)
    (data_ : C.DataArg) (imageEmbed : bool) (element : option C.Element)
    : C.Call :=
  match a with
  | AssertTrue x =>
      C.CallAssertTrue x stepDescription expectedBehavior failureBehavior
        data_ imageEmbed element
  | AssertFalse x =>
      C.CallAssertFalse x stepDescription expectedBehavior failureBehavior
        data_ imageEmbed element
  | AssertEqual x y =>
      C.CallAssertEqual x y stepDescription expectedBehavior failureBehavior
        data_ imageEmbed element
  | AssertNotEqual x y =>
      C.CallAssertNotEqual x y stepDescription expectedBehavior
        failureBehavior data_ imageEmbed element
  end.

(** The lines the specification asks of the data string: one line
    name: 'value' for each requested name that the case's data has, in the
    order of the request; a requested name the data lacks gives no line. *)
Fixpoint data_lines (data : gmap string PyVal) (names : list string)
    : list string :=
  match names with
  | [] => []
  | n :: rest =>
      match data !! n with
      | Some v => (n +:+ ": '" +:+ str v +:+ "'") :: data_lines data rest
      | None => data_lines data rest
      end
  end.

(** The image path a record carries, and those of a case in step order. *)
Definition image_of (r : StepRecord) : option string :=
  match r with
  | Event e => _TestEvent.imagePath e
  | Step st => _TestStep.imagePath st
  end.
Definition images (c : C.t) : list string := omap image_of (C.steps c).

(** The path of the screenshot that a capture made now, for a step with
    description [d], would get. *)
Definition capture_path (g : Generation) (c : C.t) (d : string) : string :=
  pjoin (pjoin ".screenshots" (C.testCaseID c))
    (C.screenshot_name g (length (C.steps c)) d).

(** Strings of decimal digits. *)
Definition is_digit (a : ascii) : bool :=
  match a with
  | "0" | "1" | "2" | "3" | "4" | "5" | "6" | "7" | "8" | "9" => true
  | _ => false
  end%char.
Fixpoint all_digits (s : string) : bool :=
  match s with
  | "" => true
  | String a s' => is_digit a && all_digits s'
  end.

(** Names as a file system has them: not empty, not the two dot entries,
    without a separator.  In a well-formed file system every file and
    directory is reached through such names. *)
Fixpoint has_sep (s : string) : bool :=
  match s with
  | "" => false
  | String c s' => Ascii.eqb c "/" || has_sep s'
  end.
Definition plain (c : string) : Prop :=
  c ≠ "" ∧ c ≠ "." ∧ c ≠ ".." ∧ has_sep c = false.
Definition fs_wf (f : FS) : Prop :=
  map_Forall (λ q _, Forall plain q) (files f) ∧
  set_Forall (Forall plain) (dirs f).

Global Instance plain_dec c : Decision (plain c).
Proof. unfold plain. apply _. Defined.
Global Instance fs_wf_dec f : Decision (fs_wf f).
Proof. unfold fs_wf. apply _. Defined.

(** The directory in which the last component of the path [base] is looked
    up. *)
Definition stem (cwd : list string) (base : string) : list string :=
  fold_left norm_step (removelast (split_sep base))
    (if starts_with_sep base then [] else cwd).

(** What a call may do to the steps of a case: nothing, or append one
    record, whose image (if it has one) is at the capture path of the
    moment. *)
Definition appended (g : Generation) (c c' : C.t) : Prop :=
  C.testCaseID c' = C.testCaseID c ∧
  (C.steps c' = C.steps c ∨
   ∃ r, C.steps c' = C.steps c ++ [r] ∧
        (image_of r = None ∨ ∃ d, image_of r = Some (capture_path g c d))).

(** Every image path of the case was made for a step counter below the
    number of steps, and no counter was used twice. *)
Definition numbered (g : Generation) (c : C.t) : Prop :=
  ∃ ds : list (nat * string),
    images c =
      (λ nd, pjoin (pjoin ".screenshots" (C.testCaseID c))
               (C.screenshot_name g nd.1 nd.2)) <$> ds ∧
    Forall (λ n, (n < length (C.steps c))%nat) ds.*1 ∧
    NoDup ds.*1.

(** The rollup as a reducer applied at each call. *)
Definition reduce (st : Z) (c : C.Call) : Z :=
  match c with
  | C.CallEvent _ warning _ _ _ => if warning && (st =? 1) then 2 else st
  | C.CallStep _ _ _ testStatus _ _ _ =>
      if negb testStatus && negb (st =? 0) then 0 else st
  | _ => st
  end.

End Spec.

(** ** A small world to evaluate the model in *)

Module Sample.
Import Py OS.
Module C := ReportingTestCase.

(** A driver that finds every element but the one with value "missing". *)
Definition drv : Driver :=
  {| find := λ _ value, if String.eqb value "missing" then None else Some 7%nat;
     screen_png := "screen-image";
     element_png := λ _, "element-image" |}.

(** Current directory /home/qa, holding an empty .screenshots directory. *)
Definition w0 : World :=
  {| fs := {| files := ∅;
              dirs := {[ ["home"]; ["home"; "qa"];
                         ["home"; "qa"; ".screenshots"] ]} |};
     cwd := ["home"; "qa"];
     driver := drv;
     stdout := []; logsink := [];
     asctime := "Tue Nov  3 17:29:00 2026";
     now := "2026-11-03 17:29:00.000001" |}.

Definition case_ab (g : Generation) : C.t :=
  C.init g "TC001" "a case with data a and b" false false
    {[ "a" := PyInt 1; "b" := PyInt 2 ]}.

Definition st0 (g : Generation) : C.St :=
  {| C.world := w0; C.self := case_ab g |}.

Definition event (d : string) (warning : bool) : C.Call :=
  C.CallEvent d warning C.DataNone false None.
Definition step (d : string) (testStatus : bool) : C.Call :=
  C.CallStep d "expected" "failure" testStatus C.DataNone false None.
Definition shot (d : string) : C.Call :=
  C.CallEvent d false C.DataNone false (Some (C.ElStr "screen")).

(** A locator the driver does not find. *)
Definition missing_logo : C.Element := C.ElDict "id" "missing".

(** A suite that reports into the current directory, and the result of a
    run with one case in each bucket. *)
Definition suite : ReportingTestSuite.t :=
  {| ReportingTestSuite.testName := "Report";
     ReportingTestSuite.testerName := "qa";
     ReportingTestSuite.outPath := ".";
     ReportingTestSuite.screenshot_path := "./.screenshots";
     ReportingTestSuite.tests := [] |}.

Definition result : ReportingTestResult.t :=
  {| ReportingTestResult.successes :=
       [(C.init Gen2 "TC001" "first" false false ∅, "")];
     ReportingTestResult.failures :=
       [(C.init Gen2 "TC010" "tenth" false false ∅, "AssertionError")];
     ReportingTestResult.errors :=
       [(C.init Gen2 "TC002" "second" false false ∅, "NameError")] |}.

(** The world after a case took two screenshots, and after the report of
    the run was then written and archived. *)
Definition w_shots : World :=
  C.world (C.after Gen2 [shot "login"; shot "login"] (st0 Gen2)).
Definition w_zipped : World :=
  state_of (ReportingTestSuite.writeReport suite result true w_shots).

(** A suite set up with the default output directory (the report name),
    and the archived report of a run in which a case took a screenshot. *)
Definition w_named : World :=
  state_of (ReportingTestSuite.init "Report" "qa" None w0).
Definition suite_named : ReportingTestSuite.t :=
  {| ReportingTestSuite.testName := "Report";
     ReportingTestSuite.testerName := "qa";
     ReportingTestSuite.outPath := "Report";
     ReportingTestSuite.screenshot_path := "Report/.screenshots";
     ReportingTestSuite.tests := [] |}.
Definition w_named_shot : World :=
  C.world (C.after Gen2 [shot "login"]
             {| C.world := w_named; C.self := case_ab Gen2 |}).
Definition w_named_zipped : World :=
  state_of (ReportingTestSuite.writeReport suite_named result true
              w_named_shot).

(** The same with output directory .screenshots and a case whose ID is
    .screenshots as well. *)
Definition w_dot : World :=
  state_of (ReportingTestSuite.init "Report" "qa" (Some ".screenshots") w0).
Definition suite_dot : ReportingTestSuite.t :=
  {| ReportingTestSuite.testName := "Report";
     ReportingTestSuite.testerName := "qa";
     ReportingTestSuite.outPath := ".screenshots";
     ReportingTestSuite.screenshot_path := ".screenshots/.screenshots";
     ReportingTestSuite.tests := [] |}.
Definition case_dot : C.t :=
  C.init Gen2 ".screenshots" "a case named like the folder" false false ∅.
Definition w_dot_shot : World :=
  C.world (C.after Gen2 [shot "login"]
             {| C.world := w_dot; C.self := case_dot |}).
Definition w_dot_zipped : World :=
  state_of (ReportingTestSuite.writeReport suite_dot result true w_dot_shot).

(** The world after the report of that run was written once, and twice. *)
Definition w_first : World :=
  state_of (ReportingTestSuite.writeReport suite result false w0).
Definition w_second : World :=
  state_of (ReportingTestSuite.writeReport suite result false w_first).

End Sample.

(** * Properties *)

(** ** Status rollup *)

Module Rollup.
Import Py OS ReportingTestCase Spec.

Lemma liftW_self {A} (m : M World A) s :
  self (state_of (liftW m s)) = self s.
Proof. unfold liftW, zoom. by destruct (m (world s)). Qed.

Lemma bind_self {A B} (m : M St A) (k : A → M St B) s :
  (∀ s, self (state_of (m s)) = self s) →
  (∀ a s, self (state_of (k a s)) = self s) →
  self (state_of ((m ≫= k) s)) = self s.
Proof.
  intros Hm Hk. unfold mbind, M_bind, bind. specialize (Hm s).
  destruct (m s) as [a s'|e s']; simpl in *; [|done].
  by rewrite Hk.
Qed.

Lemma _screenshot_self g el d s :
  self (state_of (_screenshot g el d s)) = self s.
Proof.
  unfold _screenshot.
  apply bind_self; [done|]. intros c s1.
  apply bind_self; [intros; apply liftW_self|]. intros ex s2.
  apply bind_self.
  { intros s3. destruct (negb ex); [apply liftW_self|done]. }
  intros _ s3. apply bind_self; [|done].
  intros s4. destruct el, g; try apply liftW_self; done.
Qed.

Lemma _conditionalDebugPrint_self msg s :
  self (state_of (_conditionalDebugPrint msg s)) = self s.
Proof.
  unfold _conditionalDebugPrint. apply bind_self; [done|].
  intros s1 s2. destruct (debugPrint (self s1)); [apply liftW_self|done].
Qed.

Lemma _conditionalLog_self msg s :
  self (state_of (_conditionalLog msg s)) = self s.
Proof.
  unfold _conditionalLog. apply bind_self; [done|].
  intros s1 s2. destruct (debugLog (self s1)); [apply liftW_self|done].
Qed.

(** What a report call does to the case object. *)
Lemma debug_echo_self g msg s :
  self (state_of
    (match g return M St unit with
     | Gen1 => mret tt
     | Gen2 => _conditionalDebugPrint msg;; _conditionalLog msg
     end s)) = self s.
Proof.
  destruct g; [done|].
  apply bind_self; intros; [apply _conditionalDebugPrint_self|].
  apply _conditionalLog_self.
Qed.

Lemma capture_self g el d s :
  self (state_of
    (match el return M St (option string) with
     | Some e => Some <$> _screenshot g e d
     | None => mret None
     end s)) = self s.
Proof.
  destruct el as [e|]; [|done].
  unfold fmap, M_fmap. pose proof (_screenshot_self g e d s) as H.
  unfold bind. by destruct (_screenshot g e d s).
Qed.

Lemma bind_Ok {S A B} (m : M S A) (k : A → M S B) s b s2 :
  (m ≫= k) s = Ok b s2 → ∃ a s1, m s = Ok a s1 ∧ k a s1 = Ok b s2.
Proof.
  unfold mbind, M_bind, bind. destruct (m s) as [a s1|]; [|done]. eauto.
Qed.

Lemma _screenshot_path g el d s p s1 :
  _screenshot g el d s = Ok p s1 → p = capture_path g (self s) d.
Proof.
  unfold _screenshot. intros H.
  apply bind_Ok in H as (c & s2 & [= <- <-] & H).
  apply bind_Ok in H as (ex & s3 & _ & H).
  apply bind_Ok in H as ([] & s4 & _ & H).
  apply bind_Ok in H as ([] & s5 & _ & H).
  by injection H as <- _.
Qed.

Lemma capture_img g el d s img s1 :
  match el return M St (option string) with
  | Some e => Some <$> _screenshot g e d
  | None => mret None
  end s = Ok img s1 →
  img = (λ _, capture_path g (self s) d) <$> el.
Proof.
  destruct el as [e|]; simpl; [|by intros [= <- _]].
  unfold fmap, M_fmap. intros H.
  apply bind_Ok in H as (p & s2 & H & [= <- _]).
  by apply _screenshot_path in H as ->.
Qed.

Lemma reportEvent_effect g d w da ie el s :
  match reportEvent g d w da ie el s with
  | Ok _ s' =>
      ∃ img,
        self s' =
          set_status (if w && (status (self s) =? 1) then 2
                      else status (self s))
            (append_step (Event
               {| _TestEvent.eventDescription := d;
                  _TestEvent.warning := w;
                  _TestEvent.dataString := Some (_makeDataString g (self s) da);
                  _TestEvent.imagePath := img;
                  _TestEvent.imageEmbed := ie |}) (self s)) ∧
        img = (λ _, capture_path g (self s) d) <$> el
  | Raise _ s' => self s' = self s
  end.
Proof.
  unfold reportEvent, mbind, M_bind, bind.
  pose proof (capture_self g el d s) as H1.
  pose proof (capture_img g el d s) as Himg.
  destruct (match el return M St (option string) with
            | Some e => Some <$> _screenshot g e d
            | None => mret None end s) as [img s1|x s1]; simpl in H1; [|done].
  specialize (Himg _ _ eq_refl).
  unfold get at 1.
  pose proof (debug_echo_self g d s1) as H2.
  destruct (match g return M St unit with
            | Gen1 => mret tt
            | Gen2 => _ end s1) as [[] s2|x s2]; simpl in H2; [|congruence].
  unfold set_self, modify, get. simpl. rewrite H2, H1.
  destruct (w && (status (self s) =? 1)); simpl; exists img; [done|].
  split; [|done]. by destruct (self s).
Qed.

Lemma reportStep_effect g d e f ts da ie el s :
  match reportStep g d e f ts da ie el s with
  | Ok _ s' =>
      ∃ img,
        self s' =
          set_status (if negb ts && negb (status (self s) =? 0) then 0
                      else status (self s))
            (append_step (Step
               {| _TestStep.stepDescription := d;
                  _TestStep.expectedBehavior := e;
                  _TestStep.failureBehavior := f;
                  _TestStep.testStatus := ts;
                  _TestStep.dataString := Some (_makeDataString g (self s) da);
                  _TestStep.imagePath := img;
                  _TestStep.imageEmbed := ie |}) (self s)) ∧
        img = (λ _, capture_path g (self s) d) <$> el
  | Raise _ s' => self s' = self s
  end.
Proof.
  unfold reportStep, mbind, M_bind, bind.
  pose proof (capture_self g el d s) as H1.
  pose proof (capture_img g el d s) as Himg.
  destruct (match el return M St (option string) with
            | Some e => Some <$> _screenshot g e d
            | None => mret None end s) as [img s1|x s1]; simpl in H1; [|done].
  specialize (Himg _ _ eq_refl).
  unfold get at 1.
  pose proof (debug_echo_self g d s1) as H2.
  destruct (match g return M St unit with
            | Gen1 => mret tt
            | Gen2 => _ end s1) as [[] s2|x s2]; simpl in H2; [|congruence].
  unfold set_self, modify, get. simpl. rewrite H2, H1.
  destruct (negb ts && negb (status (self s) =? 0)); simpl; exists img; [done|].
  split; [|done]. by destruct (self s).
Qed.

Lemma call_reportStep_Gen1 d e f ts da ie el :
  call_reportStep Gen1 d e f ts da ie el = raise TypeError.
Proof. reflexivity. Qed.

Lemma call_reportStep_Gen2 d e f ts da ie el :
  call_reportStep Gen2 d e f ts da ie el = reportStep Gen2 d e f ts da ie el.
Proof. reflexivity. Qed.

(** An assertion method leaves the case as its [reportStep] call left it. *)
Lemma assert_self g d e f ts da ie el (post : M St unit) s :
  (∀ s, state_of (post s) = s) →
  self (state_of ((call_reportStep g d e f ts da ie el;; post) s)) =
  self (state_of (call_reportStep g d e f ts da ie el s)).
Proof.
  intros Hpost. unfold mbind, M_bind, bind.
  destruct (call_reportStep g d e f ts da ie el s); [|done].
  by rewrite Hpost.
Qed.

Lemma call_reportStep_status g d e f ts da ie el s :
  let st := status (self s) in
  let st' := status (self (state_of (call_reportStep g d e f ts da ie el s))) in
  st' = st ∨ st' = 0.
Proof.
  destruct g; [by left|]. rewrite call_reportStep_Gen2.
  pose proof (reportStep_effect Gen2 d e f ts da ie el s) as H.
  destruct (reportStep Gen2 d e f ts da ie el s) as [[] s'|x s']; simpl.
  - destruct H as (img & -> & _). simpl.
    destruct (negb ts && negb (status (self s) =? 0)); auto.
  - left. by rewrite H.
Qed.

(** The three ways in which a call can leave the status. *)
Lemma call_status_cases g c s :
  let st := status (self s) in
  let st' := status (self (state_of (call g c s))) in
  st' = st ∨ (st = 1 ∧ st' = 2) ∨ st' = 0.
Proof.
  destruct c; simpl.
  - pose proof (reportEvent_effect g eventDescription warning data_
                  imageEmbed element s) as H.
    destruct (reportEvent _ _ _ _ _ _ s) as [[] s'|x s']; simpl.
    + destruct H as (img & -> & _). simpl.
      destruct warning; simpl; [|auto].
      destruct (status (self s) =? 1) eqn:E; [|auto].
      right; left. split; [lia|done].
    + left. by rewrite H.
  - pose proof (reportStep_effect g stepDescription expectedBehavior
                  failureBehavior testStatus data_ imageEmbed element s) as H.
    destruct (reportStep _ _ _ _ _ _ _ _ s) as [[] s'|x s']; simpl.
    + destruct H as (img & -> & _). simpl.
      destruct (negb testStatus && negb (status (self s) =? 0)); auto.
    + left. by rewrite H.
  - unfold assertTrue. rewrite assert_self.
    + destruct (call_reportStep_status g stepDescription expectedBehavior
        failureBehavior (truth expr) data_ imageEmbed element s); auto.
    + intros s0. unfold TestCase.assertTrue. by destruct (negb (truth expr)).
  - unfold assertFalse. rewrite assert_self.
    + destruct (call_reportStep_status g stepDescription expectedBehavior
        failureBehavior (negb (truth expr)) data_ imageEmbed element s); auto.
    + intros s0. unfold TestCase.assertFalse. by destruct (truth expr).
  - unfold assertEqual. rewrite assert_self.
    + destruct (call_reportStep_status g stepDescription expectedBehavior
        failureBehavior (equal first second) data_ imageEmbed element s); auto.
    + intros s0. unfold TestCase.assertEqual.
      by destruct (negb (equal first second)).
  - unfold assertNotEqual. rewrite assert_self.
    + destruct (call_reportStep_status g stepDescription expectedBehavior
        failureBehavior (negb (equal first second)) data_ imageEmbed
        element s); auto.
    + intros s0. unfold TestCase.assertNotEqual.
      by destruct (negb (not_equal first second)).
Qed.

Lemma rank_cases st st' :
  st' = st ∨ (st = 1 ∧ st' = 2) ∨ st' = 0 → (rank st ≤ rank st')%nat.
Proof.
  unfold rank. intros [->|[[-> ->]| ->]]; simpl; [lia..|].
  destruct (st =? 1), (st =? 0); lia.
Qed.

(** C1. The rollup status of a case starts at PASS and only moves along
    PASS -> WARNING -> FAIL: (1) a new case has status PASS; (2) no call, and
    (3) no sequence of calls, lowers the rank of the status; (4) a
    [reportStep] with [testStatus = false] that returns leaves the status at
    FAIL, whatever it was; (5) once the status is FAIL no call, and (6) no
    sequence of calls, changes it; (7) a [reportEvent] changes the status only
    when it is a warning and the status was PASS, and then to WARNING. *)
Theorem status_rollup_monotonic (g : Generation) :
  (∀ id desc dp dl kwargs, status (init g id desc dp dl kwargs) = 1) ∧
  (∀ c s, (rank (status (self s)) ≤
           rank (status (self (state_of (call g c s)))))%nat) ∧
  (∀ calls s, (rank (status (self s)) ≤
               rank (status (self (after g calls s))))%nat) ∧
  (∀ d e f da ie el s s',
     reportStep g d e f false da ie el s = Ok tt s' → status (self s') = 0) ∧
  (∀ c s, status (self s) = 0 → status (self (state_of (call g c s))) = 0) ∧
  (∀ calls s, status (self s) = 0 → status (self (after g calls s)) = 0) ∧
  (∀ d w da ie el s,
     let s' := state_of (reportEvent g d w da ie el s) in
     status (self s') ≠ status (self s) →
     w = true ∧ status (self s) = 1 ∧ status (self s') = 2).
Proof.
  assert (Hone : ∀ c s, status (self s) = 0 →
                        status (self (state_of (call g c s))) = 0).
  { intros c s H0. destruct (call_status_cases g c s) as [H|[[H _]|H]];
      simpl in *; congruence. }
  split; [done|]. split; [|split; [|split; [|split; [done|split]]]].
  - intros c s. apply rank_cases, call_status_cases.
  - intros calls. induction calls as [|c calls IH]; intros s; simpl; [lia|].
    etrans; [|apply IH]. apply rank_cases, call_status_cases.
  - intros d e f da ie el s s' Hrun.
    pose proof (reportStep_effect g d e f false da ie el s) as H.
    rewrite Hrun in H. destruct H as (img & -> & _). simpl.
    by destruct (status (self s) =? 0) eqn:E; simpl; [lia|].
  - intros calls. induction calls as [|c calls IH]; intros s H0; simpl; [done|].
    apply IH, Hone, H0.
  - intros d w da ie el s s' Hne. subst s'.
    pose proof (reportEvent_effect g d w da ie el s) as H.
    destruct (reportEvent g d w da ie el s) as [[] s'|x s']; simpl in *.
    + destruct H as (img & H & _). rewrite H in Hne |- *. simpl in *.
      destruct w; simpl in *; [|done].
      destruct (status (self s) =? 1) eqn:E; [|done].
      split; [done|]. split; [lia|done].
    + by rewrite H in Hne.
Qed.

(** The rollup status after one verified use of the theorem above. *)
Lemma status_rollup_monotonic_witness :
  (status (self (state_of (call Gen2 (Sample.step "s" false)
      (state_of (call Gen2 (Sample.event "e" true) (Sample.st0 Gen2)))))) = 0) ∧
  (status (self (state_of (call Gen2 (Sample.event "late" true)
      (state_of (call Gen2 (Sample.step "s" false) (Sample.st0 Gen2)))))) = 0) ∧
  (status (self (state_of (call Gen2 (Sample.event "e" true)
      (Sample.st0 Gen2)))) = 2).
Proof.
  destruct (status_rollup_monotonic Gen2) as (_ & _ & _ & H4 & H5 & _ & H7).
  split; [|split].
  - eapply (H4 "s" "expected" "failure" DataNone false None
              (state_of (call Gen2 (Sample.event "e" true) (Sample.st0 Gen2)))).
    vm_compute. reflexivity.
  - apply H5. vm_compute. reflexivity.
  - apply (H7 "e" true DataNone false None (Sample.st0 Gen2)).
    vm_compute. discriminate.
Defined.

(** A report call that returns applies the reducer to the status. *)
Lemma call_reduce g c s s' :
  is_report c = true → call g c s = Ok tt s' →
  status (self s') = reduce (status (self s)) c.
Proof.
  intros Hrep Hrun. destruct c; try discriminate; simpl in *.
  - pose proof (reportEvent_effect g eventDescription warning data_
                  imageEmbed element s) as H.
    rewrite Hrun in H. by destruct H as (img & -> & _).
  - pose proof (reportStep_effect g stepDescription expectedBehavior
                  failureBehavior testStatus data_ imageEmbed element s) as H.
    rewrite Hrun in H. by destruct H as (img & -> & _).
Qed.

Lemma run_body_reduce g calls : ∀ s s',
  forallb is_report calls = true → run_body g calls s = Ok tt s' →
  status (self s') = foldl reduce (status (self s)) calls.
Proof.
  induction calls as [|c calls IH]; intros s s' Hrep Hrun; simpl in *.
  - by injection Hrun as <-.
  - apply andb_prop in Hrep as [Hc Hrep].
    unfold mbind, M_bind, bind in Hrun.
    destruct (call g c s) as [[] s1|x s1] eqn:E; [|done].
    rewrite (IH s1 s' Hrep Hrun). f_equal. by apply (call_reduce g).
Qed.

(** Folding the reducer from PASS gives the rollup of the specification. *)
Lemma foldl_reduce calls : ∀ st,
  forallb is_report calls = true →
  foldl reduce st calls =
    if existsb is_failing_step calls then 0
    else if (st =? 1) && existsb is_warning_event calls then 2
    else st.
Proof.
  induction calls as [|c calls IH]; intros st Hrep; simpl in *.
  - by rewrite andb_false_r.
  - apply andb_prop in Hrep as [Hc Hrep]. rewrite (IH _ Hrep).
    destruct c; try discriminate; simpl.
    + destruct (existsb is_failing_step calls); [done|].
      destruct warning; simpl; [|done].
      destruct (st =? 1) eqn:E; simpl; [|by rewrite E].
      by destruct (existsb is_warning_event calls).
    + destruct testStatus; simpl; [done|].
      destruct (st =? 0) eqn:E; simpl.
      * apply Z.eqb_eq in E as ->. simpl.
        by destruct (existsb is_failing_step calls).
      * by destruct (existsb is_failing_step calls).
Qed.

Lemma existsb_Permutation {A} (f : A → bool) l l' :
  l ≡ₚ l' → existsb f l = existsb f l'.
Proof.
  intros Hp. apply eq_true_iff_eq. rewrite !existsb_exists.
  split; intros (x & Hin & Hx); exists x; split; try done.
  - by eapply Permutation_in.
  - eapply Permutation_in; [symmetry|]; done.
Qed.

(** The status of a case is at all times the rollup of its records. *)
Lemma existsb_snoc {A} (f : A → bool) l x :
  existsb f (l ++ [x]) = existsb f l || f x.
Proof. rewrite existsb_app. simpl. by rewrite orb_false_r. Qed.

Lemma call_keeps_rollup_records g c s :
  status (self s) = rollup_records (steps (self s)) →
  status (self (state_of (call g c s))) =
    rollup_records (steps (self (state_of (call g c s)))).
Proof.
  intros Hinv.
  assert (Hstep : ∀ d e f ts da ie el,
    status (self (state_of (call_reportStep g d e f ts da ie el s))) =
    rollup_records (steps (self (state_of
      (call_reportStep g d e f ts da ie el s))))).
  { intros. destruct g; [done|]. rewrite call_reportStep_Gen2.
    pose proof (reportStep_effect Gen2 d e f ts da ie el s) as H.
    destruct (reportStep Gen2 d e f ts da ie el s) as [[] s'|x s']; simpl;
      [|by rewrite H].
    destruct H as (img & -> & _). simpl. rewrite Hinv. unfold rollup_records.
    rewrite !existsb_snoc. simpl.
    destruct ts, (existsb is_failed_record (steps (self s))),
      (existsb is_warning_record (steps (self s))); done. }
  destruct c; simpl.
  - pose proof (reportEvent_effect g eventDescription warning data_
                  imageEmbed element s) as H.
    destruct (reportEvent _ _ _ _ _ _ s) as [[] s'|x s']; simpl;
      [|by rewrite H].
    destruct H as (img & -> & _). simpl. rewrite Hinv. unfold rollup_records.
    rewrite !existsb_snoc. simpl.
    destruct warning, (existsb is_failed_record (steps (self s))),
      (existsb is_warning_record (steps (self s))); done.
  - pose proof (reportStep_effect g stepDescription expectedBehavior
                  failureBehavior testStatus data_ imageEmbed element s) as H.
    destruct (reportStep _ _ _ _ _ _ _ _ s) as [[] s'|x s']; simpl;
      [|by rewrite H].
    destruct H as (img & -> & _). simpl. rewrite Hinv. unfold rollup_records.
    rewrite !existsb_snoc. simpl.
    destruct testStatus, (existsb is_failed_record (steps (self s))),
      (existsb is_warning_record (steps (self s))); done.
  - unfold assertTrue, mbind, M_bind, bind. specialize (Hstep stepDescription
      expectedBehavior failureBehavior (truth expr) data_ imageEmbed element).
    destruct (call_reportStep _ _ _ _ _ _ _ _ s); [|done].
    unfold TestCase.assertTrue. by destruct (negb (truth expr)).
  - unfold assertFalse, mbind, M_bind, bind. specialize (Hstep stepDescription
      expectedBehavior failureBehavior (negb (truth expr)) data_ imageEmbed
      element).
    destruct (call_reportStep _ _ _ _ _ _ _ _ s); [|done].
    unfold TestCase.assertFalse. by destruct (truth expr).
  - unfold assertEqual, mbind, M_bind, bind. specialize (Hstep stepDescription
      expectedBehavior failureBehavior (equal first second) data_ imageEmbed
      element).
    destruct (call_reportStep _ _ _ _ _ _ _ _ s); [|done].
    unfold TestCase.assertEqual. by destruct (negb (equal first second)).
  - unfold assertNotEqual, mbind, M_bind, bind. specialize (Hstep
      stepDescription expectedBehavior failureBehavior
      (negb (equal first second)) data_ imageEmbed element).
    destruct (call_reportStep _ _ _ _ _ _ _ _ s); [|done].
    unfold TestCase.assertNotEqual.
    by destruct (negb (not_equal first second)).
Qed.

Lemma after_keeps_rollup_records g calls : ∀ s,
  status (self s) = rollup_records (steps (self s)) →
  status (self (after g calls s)) =
    rollup_records (steps (self (after g calls s))).
Proof.
  induction calls as [|c calls IH]; intros s Hinv; simpl; [done|].
  by apply IH, call_keeps_rollup_records.
Qed.

(** C2. After any sequence of [reportEvent] and [reportStep] calls made on
    a new case (all of which returned), the status is FAIL if a step had
    [testStatus = false], otherwise WARNING if an event had [warning = true],
    otherwise PASS (also for no call at all); that verdict does not depend on
    the order of the calls; and after any calls whatsoever, returned or
    not, the status is that same verdict over the steps recorded. *)
Theorem status_is_rollup_of_outcomes (g : Generation) :
  (∀ calls w id desc dp dl kwargs s',
     forallb is_report calls = true →
     run_body g calls {| world := w; self := init g id desc dp dl kwargs |}
       = Ok tt s' →
     status (self s') = rollup calls) ∧
  (∀ calls calls', calls ≡ₚ calls' → rollup calls = rollup calls') ∧
  rollup [] = 1 ∧
  (∀ calls w id desc dp dl kwargs,
     let s' := after g calls
                 {| world := w; self := init g id desc dp dl kwargs |} in
     status (self s') = rollup_records (steps (self s'))).
Proof.
  split; [|split; [|split; [done|]]];
    [| |by intros; apply after_keeps_rollup_records].
  - intros calls w id desc dp dl kwargs s' Hrep Hrun.
    rewrite (run_body_reduce g calls _ _ Hrep Hrun), (foldl_reduce _ _ Hrep).
    done.
  - intros calls calls' Hp. unfold rollup.
    by rewrite !(existsb_Permutation _ _ _ Hp).
Qed.

(** A warning followed by a failure and the same two calls in the other
    order both end in FAIL. *)
Lemma status_is_rollup_of_outcomes_witness :
  (∃ s', run_body Gen2 [Sample.event "e" true; Sample.step "s" false]
           (Sample.st0 Gen2) = Ok tt s' ∧ status (self s') = 0) ∧
  (∃ s', run_body Gen2 [Sample.step "s" false; Sample.event "e" true]
           (Sample.st0 Gen2) = Ok tt s' ∧ status (self s') = 0).
Proof.
  destruct (status_is_rollup_of_outcomes Gen2) as (H1 & _ & _ & _).
  split; eexists; (split; [vm_compute; reflexivity|]).
  - apply (H1 [Sample.event "e" true; Sample.step "s" false] Sample.w0
             "TC001" "a case with data a and b" false false
             {[ "a" := PyInt 1; "b" := PyInt 2 ]}); vm_compute; reflexivity.
  - apply (H1 [Sample.step "s" false; Sample.event "e" true] Sample.w0
             "TC001" "a case with data a and b" false false
             {[ "a" := PyInt 1; "b" := PyInt 2 ]}); vm_compute; reflexivity.
Defined.

End Rollup.

(** ** The assertion methods *)

Module Assertions.
Import Py OS ReportingTestCase Spec Rollup.

(** An assertion method of the package generation is its [reportStep] call
    followed by the verdict of [unittest]. *)
Lemma assertion_unfold a d e f da ie el s :
  call Gen2 (assertion_call a d e f da ie el) s =
  match reportStep Gen2 d e f (predicate a) da ie el s with
  | Ok _ s1 => if predicate a then Ok tt s1 else Raise AssertionError s1
  | Raise x s1 => Raise x s1
  end.
Proof.
  destruct a; simpl;
    unfold assertTrue, assertFalse, assertEqual, assertNotEqual;
    rewrite call_reportStep_Gen2; unfold mbind, M_bind, bind;
    destruct (reportStep Gen2 _ _ _ _ _ _ _ s) as [[] s1|x s1]; try done.
  - unfold TestCase.assertTrue. by destruct (truth expr).
  - unfold TestCase.assertFalse. by destruct (truth expr).
  - unfold TestCase.assertEqual. by destruct (equal first second).
  - unfold TestCase.assertNotEqual, not_equal.
    by destruct (equal first second).
Qed.

(** Without a capture request the report calls return. *)
Ltac case_ifs :=
  repeat match goal with
         | |- context [if ?b then _ else _] => destruct b; simpl
         end.

Lemma reportStep_no_capture_returns g d e f ts da ie s :
  returns (reportStep g d e f ts da ie None s) = true.
Proof.
  unfold reportStep, mbind, M_bind, bind, mret, M_ret, ret, get.
  destruct g; simpl.
  - unfold set_self, modify. by case_ifs.
  - unfold _conditionalDebugPrint, _conditionalLog, mbind, M_bind, bind, get,
      liftW, zoom, print, logdebug, modify, mret, M_ret, ret, set_self.
    by case_ifs.
Qed.

Lemma reportEvent_no_capture_returns g d w da ie s :
  returns (reportEvent g d w da ie None s) = true.
Proof.
  unfold reportEvent, mbind, M_bind, bind, mret, M_ret, ret, get.
  destruct g; simpl.
  - unfold set_self, modify. by case_ifs.
  - unfold _conditionalDebugPrint, _conditionalLog, mbind, M_bind, bind, get,
      liftW, zoom, print, logdebug, modify, mret, M_ret, ret, set_self.
    by case_ifs.
Qed.

(** C3, at an input where it fails: [assertTrue(True, ..., element=...)]
    with a locator that the driver does not find.  The outcome is true, yet
    the call raises (the fault of the capture), and no step is appended. *)
Lemma assertion_capture_fault :
  predicate (AssertTrue (PyBool true)) = true ∧
  returns
    (assertTrue Gen2 (PyBool true) "logo shown" "expected" "failure" DataNone
       false (Some Sample.missing_logo) (Sample.st0 Gen2)) = false ∧
  steps (self (state_of
    (assertTrue Gen2 (PyBool true) "logo shown" "expected" "failure" DataNone
       false (Some Sample.missing_logo) (Sample.st0 Gen2)))) = [].
Proof. split; [|split]; vm_compute; reflexivity. Qed.

(** C3 (amended). In the package generation each of [assertTrue],
    [assertFalse], [assertEqual] and [assertNotEqual] makes its [reportStep]
    call with the value of its predicate as outcome.  (1) If that call
    returns, exactly one assertion step with that outcome has been appended
    and the method then raises [AssertionError] if and only if the outcome is
    false; if it raises (only a requested screenshot capture can make it),
    the method raises the same fault and nothing is recorded.  (2) Without a
    capture request the [reportStep] call always returns.  (3) A body
    [event, failing assertion, anything] on a new case stops at the assertion
    with exactly two steps recorded and status FAIL. *)
Theorem assertion_reports_then_raises :
  (∀ a d e f da ie el s,
     match reportStep Gen2 d e f (predicate a) da ie el s with
     | Ok _ s1 =>
         (∃ img,
            steps (self s1) =
              steps (self s) ++
              [Step {| _TestStep.stepDescription := d;
                       _TestStep.expectedBehavior := e;
                       _TestStep.failureBehavior := f;
                       _TestStep.testStatus := predicate a;
                       _TestStep.dataString :=
                         Some (_makeDataString Gen2 (self s) da);
                       _TestStep.imagePath := img;
                       _TestStep.imageEmbed := ie |}]) ∧
         call Gen2 (assertion_call a d e f da ie el) s =
           (if predicate a then Ok tt s1 else Raise AssertionError s1)
     | Raise x s1 =>
         call Gen2 (assertion_call a d e f da ie el) s = Raise x s1 ∧
         self s1 = self s ∧ el ≠ None
     end) ∧
  (∀ a d e f da ie s,
     returns (reportStep Gen2 d e f (predicate a) da ie None s) = true) ∧
  (∀ w id desc dp dl kwargs d1 w1 da1 ie1 a d e f da ie c3,
     predicate a = false →
     let r := run_body Gen2
                [CallEvent d1 w1 da1 ie1 None;
                 assertion_call a d e f da ie None; c3]
                {| world := w; self := init Gen2 id desc dp dl kwargs |} in
     r = Raise AssertionError (state_of r) ∧
     length (steps (self (state_of r))) = 2%nat ∧
     status (self (state_of r)) = 0).
Proof.
  split; [|split].
  - intros a d e f da ie el s. rewrite assertion_unfold.
    pose proof (reportStep_effect Gen2 d e f (predicate a) da ie el s) as H.
    pose proof (reportStep_no_capture_returns Gen2 d e f (predicate a) da ie s)
      as Hret.
    destruct (reportStep Gen2 d e f (predicate a) da ie el s) as [[] s1|x s1]
      eqn:E.
    + destruct H as (img & -> & _). split; [by exists img|done].
    + split; [done|]. split; [done|]. intros ->. by rewrite E in Hret.
  - intros. apply reportStep_no_capture_returns.
  - intros w id desc dp dl kwargs d1 w1 da1 ie1 a d e f da ie c3 Hfalse.
    set (s0 := {| world := w; self := init Gen2 id desc dp dl kwargs |}).
    simpl run_body. unfold mbind, M_bind, bind.
    change (call Gen2 (CallEvent d1 w1 da1 ie1 None) s0)
      with (reportEvent Gen2 d1 w1 da1 ie1 None s0).
    pose proof (reportEvent_no_capture_returns Gen2 d1 w1 da1 ie1 s0) as R1.
    pose proof (reportEvent_effect Gen2 d1 w1 da1 ie1 None s0) as E1.
    destruct (reportEvent Gen2 d1 w1 da1 ie1 None s0) as [[] s1|x s1];
      [|done].
    destruct E1 as (img1 & E1 & _). rewrite assertion_unfold, Hfalse.
    pose proof (reportStep_no_capture_returns Gen2 d e f false da ie s1) as R2.
    pose proof (reportStep_effect Gen2 d e f false da ie None s1) as E2.
    destruct (reportStep Gen2 d e f false da ie None s1) as [[] s2|x s2];
      [|done].
    destruct E2 as (img2 & E2 & _). simpl. rewrite E2, E1. simpl.
    split; [done|]. split; [done|]. by destruct w1.
Qed.

(** The scripted case of the specification, run in the sample world. *)
Lemma assertion_reports_then_raises_witness :
  ∃ s', run_body Gen2
          [Sample.event "open page" false;
           assertion_call (AssertTrue (PyBool false)) "title" "shown" "absent"
             DataNone false None;
           Sample.event "never reached" false] (Sample.st0 Gen2)
        = Raise AssertionError s' ∧
        length (steps (self s')) = 2%nat ∧ status (self s') = 0.
Proof.
  destruct assertion_reports_then_raises as (_ & _ & H3).
  eexists.
  apply (H3 Sample.w0 "TC001" "a case with data a and b" false false
            {[ "a" := PyInt 1; "b" := PyInt 2 ]}
            "open page" false DataNone false (AssertTrue (PyBool false))
            "title" "shown" "absent" DataNone false
            (Sample.event "never reached" false)).
  reflexivity.
Defined.

(** C4. In the older generation each of the four assertion methods
    raises [TypeError], whatever the outcome of its predicate: the keyword
    [elementIDs] under which it forwards its last argument is not a parameter
    of [reportStep] (which calls it [element]).  The error comes before the
    body of [reportStep] runs, so the state is the one before the call: no
    step is appended and the status is unchanged. *)
Theorem old_assertions_raise_TypeError :
  forwarded_keyword Gen1 = "elementIDs" ∧
  (forwarded_keyword Gen1 ∉ reportStep_params) ∧
  ("element" ∈ reportStep_params) ∧
  (∀ a d e f da ie el s,
     call Gen1 (assertion_call a d e f da ie el) s = Raise TypeError s) ∧
  (∀ a d e f da ie el s,
     let s' := state_of (call Gen1 (assertion_call a d e f da ie el) s) in
     steps (self s') = steps (self s) ∧ status (self s') = status (self s)).
Proof.
  assert (H : ∀ a d e f da ie el s,
            call Gen1 (assertion_call a d e f da ie el) s = Raise TypeError s).
  { intros a d e f da ie el s. destruct a; simpl;
      unfold assertTrue, assertFalse, assertEqual, assertNotEqual;
      by rewrite call_reportStep_Gen1. }
  split; [done|]. split; [|split; [|split; [done|]]].
  - apply (bool_decide_eq_false_1 _). reflexivity.
  - apply (bool_decide_eq_true_1 _). reflexivity.
  - intros a d e f da ie el s. by rewrite H.
Qed.

End Assertions.

(** ** The data string *)

Module DataString.
Import Py OS ReportingTestCase Spec.

Lemma rows_are_data_lines (m : gmap string PyVal) (names : list string) :
  (λ k, k +:+ ": '" +:+ str (m !!! k) +:+ "'") <$>
    filter (λ a, a ∈ dom m) names
  = data_lines m names.
Proof.
  induction names as [|n names IH]; [done|].
  rewrite filter_cons. simpl. destruct (m !! n) as [v|] eqn:E.
  - rewrite decide_True by (apply elem_of_dom; eauto).
    rewrite fmap_cons, IH. by rewrite (lookup_total_correct _ _ _ E).
  - rewrite decide_False; [done|]. rewrite elem_of_dom, E.
    by intros [? ?].
Qed.

(** C6. [_makeDataString]: for a list of field names the result is the
    lines name: 'value' of the names present in the case's data, in request
    order, joined by the line separator (a line feed in the older generation,
    the HTML line break in the package generation), names absent from the
    data being left out; a string is returned as it is; nothing gives the
    empty string.  With data a=1, b=2 and request [a, c] the result is the
    single line for a. *)
Theorem makeDataString_spec (g : Generation) (c : t) :
  (∀ names, _makeDataString g c (DataList names) =
            join (row_sep g) (data_lines (data c) names)) ∧
  (∀ s, _makeDataString g c (DataStr s) = s) ∧
  _makeDataString g c DataNone = "" ∧
  _makeDataString g (Sample.case_ab g) (DataList ["a"; "c"]) = "a: '1'" ∧
  _makeDataString g (Sample.case_ab g) (DataList ["b"; "c"; "a"]) =
    "b: '2'" +:+ row_sep g +:+ "a: '1'".
Proof.
  split; [|split; [done|split; [done|]]].
  - intros names. unfold _makeDataString. by rewrite rows_are_data_lines.
  - destruct g; split; vm_compute; reflexivity.
Qed.

End DataString.

(** ** Order of the cases in the report *)

Module Ordering.
Import Py OS Spec.
Import ReportingTestSuite.

Section sort_by.
Context {A : Type} (key : A → string).

Local Abbreviation le_key := (λ a b : A, (key a ≤ key b)%string).

Lemma ltb_false_le (x y : string) : String.ltb y x = false → (x ≤ y)%string.
Proof.
  unfold String.ltb, String.le, String.leb. rewrite (String.compare_antisym x y).
  by destruct (String.compare y x).
Qed.

Lemma ltb_true_le (x y : string) :
  String.ltb y x = true → (y ≤ x)%string ∧ y ≠ x.
Proof.
  unfold String.ltb, String.le, String.leb. intros H. split.
  - by destruct (String.compare y x).
  - intros ->. assert (String.compare x x = Eq) as E; [|by rewrite E in H].
    destruct (String.compare x x) eqn:E; [done|..];
      pose proof (String.compare_antisym x x) as Ha; rewrite E in Ha; done.
Qed.

Lemma insert_by_perm (x : A) (l : list A) : insert_by key x l ≡ₚ x :: l.
Proof.
  induction l as [|y l IH]; simpl; [done|].
  destruct (String.ltb (key y) (key x)); [|done].
  rewrite IH. apply Permutation_swap.
Qed.

Lemma sort_by_perm (l : list A) : sort_by key l ≡ₚ l.
Proof.
  induction l as [|x l IH]; simpl; [done|].
  unfold sort_by in *. simpl. by rewrite insert_by_perm, IH.
Qed.

Lemma insert_by_sorted (x : A) (l : list A) :
  StronglySorted le_key l → StronglySorted le_key (insert_by key x l).
Proof.
  induction 1 as [|y l Hs IH Hy]; simpl.
  - repeat constructor.
  - destruct (String.ltb (key y) (key x)) eqn:E.
    + constructor; [done|].
      apply ltb_true_le in E as [E _].
      rewrite (Forall_forall (λ b, (key y ≤ key b)%string)).
      intros z Hz. apply (elem_of_Permutation_proper _ _ _ (insert_by_perm x l)) in Hz.
      apply elem_of_cons in Hz as [->|Hz]; [done|].
      by eapply Forall_forall in Hy.
    + apply ltb_false_le in E.
      constructor; [by constructor|].
      constructor; [done|].
      eapply Forall_impl; [exact Hy|]. intros z Hz. simpl in *.
      by etrans.
Qed.

Lemma sort_by_sorted (l : list A) : StronglySorted le_key (sort_by key l).
Proof.
  induction l as [|x l IH]; [constructor|].
  by apply insert_by_sorted.
Qed.

Lemma insert_by_filter (k : string) (x : A) (l : list A) :
  filter (λ a, key a = k) (insert_by key x l) =
  filter (λ a, key a = k) (x :: l).
Proof.
  induction l as [|y l IH]; simpl; [done|].
  destruct (String.ltb (key y) (key x)) eqn:E; [|done].
  apply ltb_true_le in E as [_ Hne].
  rewrite !filter_cons, IH, !filter_cons.
  destruct (decide (key y = k)), (decide (key x = k)); congruence.
Qed.

Lemma sort_by_stable (k : string) (l : list A) :
  filter (λ a, key a = k) (sort_by key l) = filter (λ a, key a = k) l.
Proof.
  induction l as [|x l IH]; [done|].
  unfold sort_by in *. simpl. rewrite insert_by_filter, !filter_cons.
  by rewrite IH.
Qed.

(** Sortedness and stability leave no choice: any list that is sorted by
    key and has, key by key, the elements of [l] in their order of [l], is
    equal to another such list. *)
Lemma sorted_stable_unique (l1 l2 : list A) :
  StronglySorted le_key l1 → StronglySorted le_key l2 →
  (∀ k, filter (λ a, key a = k) l1 = filter (λ a, key a = k) l2) →
  l1 = l2.
Proof.
  intros H1. revert l2.
  induction H1 as [|x l1 Hs1 IH Hx]; intros l2 H2 Hf.
  - destruct l2 as [|y l2]; [done|].
    specialize (Hf (key y)). rewrite filter_cons, decide_True in Hf; done.
  - destruct H2 as [|y l2 Hs2 Hy].
    { specialize (Hf (key x)). rewrite filter_cons, decide_True in Hf; done. }
    assert (key x = key y) as Hk.
    { apply (anti_symm String.le).
      - assert (y ∈ x :: l1) as Hin.
        { apply (list_elem_of_filter (λ a, key a = key y)).
          rewrite Hf, filter_cons, decide_True by done. left. }
        apply elem_of_cons in Hin as [->|Hin]; [done|].
        by eapply Forall_forall in Hx.
      - assert (x ∈ y :: l2) as Hin.
        { apply (list_elem_of_filter (λ a, key a = key x)).
          rewrite <- Hf, filter_cons, decide_True by done. left. }
        apply elem_of_cons in Hin as [->|Hin]; [done|].
        by eapply Forall_forall in Hy. }
    pose proof (Hf (key x)) as Hfx.
    rewrite !filter_cons, decide_True, decide_True in Hfx by done.
    injection Hfx as -> Hfx. f_equal. apply IH; [done|].
    intros k. specialize (Hf k). rewrite !filter_cons in Hf.
    destruct (decide (key y = k)); [by injection Hf|done].
Qed.

End sort_by.

(** What [writeReport] leaves in the report file when it does not archive. *)
Lemma writeReport_document (s : t) (r : R.t) (w w' : World) :
  writeReport s r false w = Ok tt w' →
  files (fs w') !! resolve (cwd w) (pjoin (outPath s) (testName s +:+ ".html"))
  = Some (Bytes (document (testName s) (testerName s) (now w)
                   (allTestCases r))).
Proof.
  unfold writeReport, mbind, M_bind, bind, get.
  set (filePath := pjoin (outPath s) (testName s +:+ ".html")).
  assert (Hrm : ∀ w1 w2, remove filePath w1 = Ok tt w2 →
                         cwd w2 = cwd w1 ∧ now w2 = now w1).
  { unfold remove. intros w1 w2. repeat case_match; try done.
    by intros [= <-]. }
  assert (Hwr : ∀ c w1 w2, write_file filePath c w1 = Ok tt w2 →
                  files (fs w2) !! resolve (cwd w1) filePath = Some c).
  { unfold write_file. intros c w1 w2. repeat case_match; try done.
    intros [= <-]. simpl. by rewrite lookup_insert_eq. }
  destruct (exists_ w filePath).
  - destruct (remove filePath w) as [[] w1|x w1] eqn:E1; [|done].
    apply Hrm in E1 as [Hc Hn].
    destruct (write_file filePath _ w1) as [[] w2|x w2] eqn:E2; [|done].
    intros [= <-]. apply Hwr in E2. by rewrite Hc, Hn in E2.
  - simpl.
    destruct (write_file filePath _ w) as [[] w2|x w2] eqn:E2; [|done].
    intros [= <-]. by apply Hwr in E2.
Qed.

(** C5. The report shows the cases in the order of a stable sort by
    [testCaseID] (strings compared lexicographically) of the three buckets
    taken in the order succeeded, failed, errored: the order shown is a
    permutation of that list, ascending in [testCaseID], with cases of equal
    ID in their order of that list; there is only one such order; the
    document written holds the case blocks in it; and cases TC001
    (succeeded), TC010 (failed), TC002 (errored) come out as TC001, TC002,
    TC010. *)
Theorem report_order_is_stable_sort_by_id :
  (∀ r : R.t,
     let buckets := (R.successes r).*1 ++ (R.failures r).*1 ++ (R.errors r).*1 in
     allTestCases r ≡ₚ buckets ∧
     StronglySorted (λ a b, (C.testCaseID a ≤ C.testCaseID b)%string)
       (allTestCases r) ∧
     (∀ k, filter (λ c, C.testCaseID c = k) (allTestCases r) =
           filter (λ c, C.testCaseID c = k) buckets) ∧
     (∀ l, StronglySorted (λ a b, (C.testCaseID a ≤ C.testCaseID b)%string) l →
           (∀ k, filter (λ c, C.testCaseID c = k) l =
                 filter (λ c, C.testCaseID c = k) buckets) →
           l = allTestCases r)) ∧
  (∀ s r w w',
     writeReport s r false w = Ok tt w' →
     files (fs w') !! resolve (cwd w) (pjoin (outPath s) (testName s +:+ ".html"))
     = Some (Bytes (written (
         ["<html><body>"] ++
         [report_header (testName s) (now w) (testerName s)] ++
         mjoin (case_block <$> allTestCases r) ++
         ["</body></html>"])))) ∧
  (∀ g tb1 tb2,
     C.testCaseID <$>
       allTestCases
         {| R.successes := [(C.init g "TC001" "first" false false ∅, "")];
            R.failures := [(C.init g "TC010" "tenth" false false ∅, tb1)];
            R.errors := [(C.init g "TC002" "second" false false ∅, tb2)] |}
     = ["TC001"; "TC002"; "TC010"]).
Proof.
  split; [|split].
  - intros r buckets. split; [|split; [|split]].
    + apply sort_by_perm.
    + apply sort_by_sorted.
    + intros k. apply sort_by_stable.
    + intros l Hs Hf. apply (sorted_stable_unique C.testCaseID); [done|..].
      * apply sort_by_sorted.
      * intros k. rewrite Hf. symmetry. apply sort_by_stable.
  - intros s r w w' Hrun. by apply writeReport_document in Hrun.
  - intros g tb1 tb2. reflexivity.
Qed.

(** The report of a run with one case per bucket, written in the sample
    world, holds the blocks in the order TC001, TC002, TC010. *)
Lemma report_order_is_stable_sort_by_id_witness :
  ∃ w' doc,
    files (fs w') !! ["home"; "qa"; "Report.html"] = Some (Bytes doc) ∧
    doc = document "Report" "qa" (now Sample.w0)
            [C.init Gen2 "TC001" "first" false false ∅;
             C.init Gen2 "TC002" "second" false false ∅;
             C.init Gen2 "TC010" "tenth" false false ∅].
Proof.
  destruct report_order_is_stable_sort_by_id as (_ & H2 & _).
  eexists _, _. split; [|reflexivity].
  apply (H2 {| testName := "Report"; testerName := "qa"; outPath := ".";
               screenshot_path := "./.screenshots"; tests := [] |}
            {| R.successes := [(C.init Gen2 "TC001" "first" false false ∅, "")];
               R.failures := [(C.init Gen2 "TC010" "tenth" false false ∅, "AssertionError")];
               R.errors := [(C.init Gen2 "TC002" "second" false false ∅, "NameError")] |}
            Sample.w0).
  vm_compute. reflexivity.
Defined.

End Ordering.

(** ** Screenshot paths *)

Module Screenshots.
Import Py OS ReportingTestCase Spec Rollup.

(** *** Strings *)

Lemma list_ascii_app (s t : string) :
  list_ascii_of_string (s +:+ t) =
  list_ascii_of_string s ++ list_ascii_of_string t.
Proof. induction s as [|a s IH]; simpl; [done|]. by rewrite IH. Qed.

Lemma string_app_inj_r (s1 s2 t : string) : s1 +:+ t = s2 +:+ t → s1 = s2.
Proof.
  intros H. apply (f_equal list_ascii_of_string) in H.
  rewrite !list_ascii_app in H. apply app_inv_tail in H.
  apply (f_equal string_of_list_ascii) in H.
  by rewrite !string_of_list_ascii_of_string in H.
Qed.

Lemma string_of_uint_digits (d : uint) :
  all_digits (NilEmpty.string_of_uint d) = true.
Proof. induction d; simpl; auto. Qed.

Lemma string_of_uint_inj (d d' : uint) :
  NilEmpty.string_of_uint d = NilEmpty.string_of_uint d' → d = d'.
Proof.
  intros H. apply (f_equal NilEmpty.uint_of_string) in H.
  rewrite !NilEmpty.usu in H. by injection H.
Qed.

Lemma str_nat_inj (n m : nat) : str_nat n = str_nat m → n = m.
Proof.
  unfold str_nat. intros H%string_of_uint_inj. by apply Unsigned.to_uint_inj.
Qed.

Lemma str_nat_digits (n : nat) : all_digits (str_nat n) = true.
Proof. apply string_of_uint_digits. Qed.

Lemma str_nat_nonempty (n : nat) : str_nat n ≠ "".
Proof.
  unfold str_nat. intros H.
  assert (Nat.to_uint n ≠ Nil) as Hn.
  { rewrite <- (Unsigned.of_to n) at 1. rewrite Unsigned.to_of.
    apply DecimalFacts.unorm_nonnil. }
  by destruct (Nat.to_uint n).
Qed.

(** Two strings that start with digits followed by a space agree on the
    digits and on the rest. *)
Lemma digits_then_space (s1 s2 r1 r2 : string) :
  all_digits s1 = true → all_digits s2 = true →
  s1 +:+ String " " r1 = s2 +:+ String " " r2 → s1 = s2 ∧ r1 = r2.
Proof.
  revert s2. induction s1 as [|a s1 IH]; intros [|b s2] H1 H2 H; simpl in *.
  - by injection H.
  - injection H as <- _. done.
  - injection H as -> _. done.
  - apply andb_prop in H1 as [_ H1]. apply andb_prop in H2 as [_ H2].
    injection H as -> H. by destruct (IH s2 H1 H2 H) as [-> ->].
Qed.

(** In the package generation the file name determines the step counter
    and the description. *)
Lemma screenshot_name_Gen2_inj n d n' d' :
  screenshot_name Gen2 n d = screenshot_name Gen2 n' d' → n = n' ∧ d = d'.
Proof.
  unfold screenshot_name. intros H.
  apply (digits_then_space _ _ ("- " +:+ d +:+ ".png")
           ("- " +:+ d' +:+ ".png")) in H as [Hn Hd];
    [|apply str_nat_digits..].
  apply str_nat_inj in Hn. split; [lia|].
  injection Hd as Hd. change (d +:+ ".png" = d' +:+ ".png") in Hd.
  by apply string_app_inj_r in Hd.
Qed.

Lemma screenshot_name_Gen2_relative n d :
  starts_with_sep (screenshot_name Gen2 n d) = false.
Proof.
  unfold screenshot_name.
  pose proof (str_nat_nonempty (n + 1)) as Hne.
  pose proof (str_nat_digits (n + 1)) as Hd.
  destruct (str_nat (n + 1)) as [|a s]; [done|]. simpl in *.
  apply andb_prop in Hd as [Ha _].
  by destruct a as [[] [] [] [] [] [] [] []].
Qed.

Lemma pjoin_inj_relative a b b' :
  starts_with_sep b = false → starts_with_sep b' = false →
  pjoin a b = pjoin a b' → b = b'.
Proof.
  unfold pjoin. intros -> ->.
  destruct (String.eqb a "" || ends_with_sep a); intros H.
  - by apply (inj (String.append a)) in H.
  - apply (inj (String.append a)) in H. by injection H.
Qed.

(** *** What a call adds to the steps *)

Lemma reportStep_appended g d e f ts da ie el s :
  appended g (self s) (self (state_of (reportStep g d e f ts da ie el s))).
Proof.
  pose proof (reportStep_effect g d e f ts da ie el s) as H.
  destruct (reportStep g d e f ts da ie el s) as [[] s'|x s']; simpl.
  - destruct H as (img & -> & ->). split; [done|]. right. eexists.
    split; [done|]. destruct el; simpl; eauto.
  - rewrite H. split; [done|by left].
Qed.

Lemma call_reportStep_appended g d e f ts da ie el s :
  appended g (self s)
    (self (state_of (call_reportStep g d e f ts da ie el s))).
Proof.
  destruct g.
  - rewrite call_reportStep_Gen1. split; [done|by left].
  - rewrite call_reportStep_Gen2. apply reportStep_appended.
Qed.

Lemma call_appended g c s :
  appended g (self s) (self (state_of (call g c s))).
Proof.
  destruct c; simpl.
  - pose proof (reportEvent_effect g eventDescription warning data_
                  imageEmbed element s) as H.
    destruct (reportEvent _ _ _ _ _ _ s) as [[] s'|x s']; simpl.
    + destruct H as (img & -> & ->). split; [done|]. right. eexists.
      split; [done|]. destruct element; simpl; eauto.
    + rewrite H. split; [done|by left].
  - apply reportStep_appended.
  - unfold assertTrue. rewrite assert_self; [apply call_reportStep_appended|].
    intros s0. unfold TestCase.assertTrue. by destruct (negb (truth expr)).
  - unfold assertFalse. rewrite assert_self; [apply call_reportStep_appended|].
    intros s0. unfold TestCase.assertFalse. by destruct (truth expr).
  - unfold assertEqual. rewrite assert_self; [apply call_reportStep_appended|].
    intros s0. unfold TestCase.assertEqual.
    by destruct (negb (equal first second)).
  - unfold assertNotEqual.
    rewrite assert_self; [apply call_reportStep_appended|].
    intros s0. unfold TestCase.assertNotEqual.
    by destruct (negb (not_equal first second)).
Qed.

(** *** The image paths of a case *)

Lemma numbered_appended g c c' : appended g c c' → numbered g c → numbered g c'.
Proof.
  intros [Hid Happ] (ds & Himg & Hlt & Hnd). unfold numbered, images in *.
  rewrite Hid. destruct Happ as [->|(r & -> & Hr)].
  { by exists ds. }
  rewrite omap_app, length_app. simpl.
  destruct Hr as [->|[d ->]]; simpl.
  - exists ds. rewrite app_nil_r. split; [done|]. split; [|done].
    eapply Forall_impl; [done|]. simpl. lia.
  - exists (ds ++ [(length (steps c), d)]).
    rewrite !fmap_app. simpl. split; [by rewrite Himg|]. split.
    + apply Forall_app. split.
      * eapply Forall_impl; [done|]. simpl. lia.
      * repeat constructor. lia.
    + apply NoDup_app. split; [done|]. split; [|apply NoDup_singleton].
      intros n Hn ->%list_elem_of_singleton.
      eapply Forall_forall in Hlt; [|done]. lia.
Qed.

Lemma numbered_after g calls : ∀ s,
  numbered g (self s) → numbered g (self (after g calls s)).
Proof.
  induction calls as [|c calls IH]; intros s H; simpl; [done|].
  apply IH. eapply numbered_appended; [apply call_appended|done].
Qed.

Lemma numbered_Gen2_NoDup c : numbered Gen2 c → NoDup (images c).
Proof.
  intros (ds & -> & _ & Hnd).
  induction ds as [|[n d] ds IH]; [constructor|].
  rewrite fmap_cons. rewrite fmap_cons in Hnd.
  apply NoDup_cons in Hnd as [Hn Hnd].
  apply NoDup_cons. split; [|by apply IH].
  intros Hin. apply list_elem_of_fmap in Hin as ([n' d'] & Heq & Hin).
  simpl in Heq.
  apply pjoin_inj_relative in Heq;
    [|apply screenshot_name_Gen2_relative..].
  apply screenshot_name_Gen2_inj in Heq as [-> _].
  apply Hn. apply list_elem_of_fmap. by exists (n', d').
Qed.

Lemma after_testCaseID g calls : ∀ s,
  testCaseID (self (after g calls s)) = testCaseID (self s).
Proof.
  induction calls as [|c calls IH]; intros s; simpl; [done|].
  rewrite IH. apply call_appended.
Qed.

(** C7, where it fails: in the older generation two captures of one case
    with the same description get the same path (the second image replaces
    the first). *)
Lemma old_generation_screenshot_paths_collide :
  images (self (after Gen1 [Sample.shot "login"; Sample.shot "login"]
                  (Sample.st0 Gen1)))
  = [".screenshots/TC001/login.png"; ".screenshots/TC001/login.png"].
Proof. vm_compute. reflexivity. Qed.

(** C7 (amended). A capture stores its image under the per-case folder
    .screenshots/<testCaseID>, in both generations (1).  In the package
    generation the file name is the would-be number of the step being
    recorded, then the description (2); so after any calls on a new case
    the image paths recorded are pairwise different, each of that form for a
    counter below the number of steps (3), and two captures at different
    counters differ also when their descriptions are equal (4).  In the older
    generation the file name is the description alone (5): captures with
    different descriptions differ, captures with the same description
    coincide (6). *)
Theorem screenshot_paths_unique_per_case :
  (∀ g el d s p s1,
     _screenshot g el d s = Ok p s1 →
     p = pjoin (pjoin ".screenshots" (testCaseID (self s)))
           (screenshot_name g (length (steps (self s))) d)) ∧
  (∀ n d, screenshot_name Gen2 n d =
          str_nat (n + 1) +:+ " - " +:+ d +:+ ".png") ∧
  (∀ calls w id desc dp dl kwargs,
     let c := self (after Gen2 calls
                {| world := w; self := init Gen2 id desc dp dl kwargs |}) in
     NoDup (images c) ∧
     ∀ p, p ∈ images c →
          ∃ n d, (n < length (steps c))%nat ∧
                 p = pjoin (pjoin ".screenshots" id)
                       (str_nat (n + 1) +:+ " - " +:+ d +:+ ".png")) ∧
  (∀ folder n n' d d',
     n ≠ n' →
     pjoin folder (screenshot_name Gen2 n d) ≠
     pjoin folder (screenshot_name Gen2 n' d')) ∧
  (∀ n d, screenshot_name Gen1 n d = d +:+ ".png") ∧
  (∀ n n' d d',
     screenshot_name Gen1 n d = screenshot_name Gen1 n' d' ↔ d = d').
Proof.
  split; [|split; [done|split; [|split; [|split; [done|]]]]].
  - intros g el d s p s1 H. by apply _screenshot_path in H.
  - intros calls w id desc dp dl kwargs c.
    assert (numbered Gen2 c) as Hnum.
    { apply numbered_after. exists []. repeat split; constructor. }
    split; [by apply numbered_Gen2_NoDup|].
    intros p Hp. destruct Hnum as (ds & Himg & Hlt & _).
    rewrite Himg in Hp. apply list_elem_of_fmap in Hp as ([n d] & -> & Hin).
    exists n, d. split.
    + eapply Forall_forall in Hlt; [done|].
      apply list_elem_of_fmap. by exists (n, d).
    + subst c. by rewrite after_testCaseID.
  - intros folder n n' d d' Hne Heq.
    apply pjoin_inj_relative in Heq; [|apply screenshot_name_Gen2_relative..].
    by apply screenshot_name_Gen2_inj in Heq as [? _].
  - intros n n' d d'. simpl. split; [apply string_app_inj_r|by intros ->].
Qed.

(** Two captures with the same description in the package generation. *)
Lemma screenshot_paths_unique_per_case_witness :
  images (self (after Gen2 [Sample.shot "login"; Sample.shot "login"]
                  (Sample.st0 Gen2)))
  = [".screenshots/TC001/1 - login.png"; ".screenshots/TC001/2 - login.png"] ∧
  NoDup (images (self (after Gen2 [Sample.shot "login"; Sample.shot "login"]
                         (Sample.st0 Gen2)))) ∧
  pjoin ".screenshots/TC001" (screenshot_name Gen2 0 "login") ≠
  pjoin ".screenshots/TC001" (screenshot_name Gen2 1 "login").
Proof.
  destruct screenshot_paths_unique_per_case as (_ & _ & H3 & H4 & _).
  split; [vm_compute; reflexivity|]. split.
  - apply (H3 [Sample.shot "login"; Sample.shot "login"] Sample.w0 "TC001"
              "a case with data a and b" false false
              {[ "a" := PyInt 1; "b" := PyInt 2 ]}).
  - apply H4. lia.
Defined.

End Screenshots.

(** ** Determinism of the report *)

Module Determinism.
Import Py OS Spec Ordering.
Import ReportingTestSuite.

Lemma string_app_assoc (a b c : string) : (a +:+ b) +:+ c = a +:+ b +:+ c.
Proof.
  induction a as [|x a IH]; [done|].
  change (String x ((a +:+ b) +:+ c) = String x (a +:+ b +:+ c)).
  by rewrite IH.
Qed.

Lemma written_app (l1 l2 : list string) :
  written (l1 ++ l2) = written l1 +:+ written l2.
Proof.
  induction l1 as [|x l1 IH]; simpl; [done|].
  by rewrite IH, string_app_assoc.
Qed.

(** The document is the timestamp between two texts that do not depend
    on it. *)
Lemma document_around_timestamp testName testerName cases :
  ∃ pre post, ∀ now,
    document testName testerName now cases = pre +:+ now +:+ post.
Proof.
  exists ("<html><body>" +:+ "<h3>" +:+ testName +:+ nl 16 +:+ "- run "),
    ((nl 16 +:+ "by " +:+ testerName +:+ "</h3>") +:+
       written (mjoin (case_block <$> cases) ++ ["</body></html>"])).
  intros now. unfold document.
  change (["<html><body>"] ++ [report_header testName now testerName] ++
            mjoin (case_block <$> cases) ++ ["</body></html>"])
    with (["<html><body>"; report_header testName now testerName] ++
            (mjoin (case_block <$> cases) ++ ["</body></html>"])).
  rewrite written_app. unfold report_header. simpl written at 1.
  rewrite !string_app_assoc. done.
Qed.

(** With pairwise different case IDs the order shown depends on the set of
    cases only, not on the buckets or on the order of execution. *)
Lemma filter_key_short {A} (key : A → string) (k : string) (l : list A) :
  NoDup (key <$> l) → (length (filter (λ a, key a = k) l) ≤ 1)%nat.
Proof.
  induction l as [|x l IH]; [simpl; lia|].
  rewrite fmap_cons, NoDup_cons. intros [Hx Hnd].
  rewrite filter_cons. destruct (decide (key x = k)) as [<-|]; [|by apply IH].
  assert (filter (λ a, key a = key x) l = []) as ->; [|simpl; lia].
  destruct (filter _ l) as [|y l'] eqn:E; [done|]. exfalso. apply Hx.
  assert (y ∈ filter (λ a, key a = key x) l) as Hy by (rewrite E; left).
  apply list_elem_of_filter in Hy as [Hk Hy].
  rewrite <- Hk. by apply list_elem_of_fmap_2.
Qed.

Lemma sort_by_set {A} (key : A → string) (l1 l2 : list A) :
  NoDup (key <$> l1) → l1 ≡ₚ l2 → sort_by key l1 = sort_by key l2.
Proof.
  intros Hnd Hp. apply (sorted_stable_unique key); [apply sort_by_sorted..|].
  intros k. rewrite !sort_by_stable.
  pose proof (filter_key_short key k l1 Hnd) as Hlen.
  assert (filter (λ a, key a = k) l1 ≡ₚ filter (λ a, key a = k) l2) as Hf
    by (by rewrite Hp).
  destruct (filter (λ a, key a = k) l1) as [|x [|y l]]; simpl in Hlen; [..|lia].
  - by apply Permutation_nil_l in Hf.
  - by apply Permutation_singleton_l in Hf.
Qed.

(** C9. Report generation is deterministic.  (1) Two invocations of
    [writeReport] with the same report name, tester name, run result and
    timestamp leave byte-identical documents, whatever else differs (output
    directory, file system, console).  (2) With pairwise different case IDs
    the document depends on the set of cases only, not on their buckets or
    order.  (3) The timestamp occurs once: the document is a text, the
    timestamp, and a text, the two texts being fixed by the cases and the
    metadata; so with the real clock two outputs differ in that field only. *)
Theorem report_is_deterministic :
  (∀ s1 s2 r w1 w2 w1' w2',
     testName s1 = testName s2 → testerName s1 = testerName s2 →
     now w1 = now w2 →
     writeReport s1 r false w1 = Ok tt w1' →
     writeReport s2 r false w2 = Ok tt w2' →
     ∃ doc,
       files (fs w1') !!
         resolve (cwd w1) (pjoin (outPath s1) (testName s1 +:+ ".html"))
         = Some (Bytes doc) ∧
       files (fs w2') !!
         resolve (cwd w2) (pjoin (outPath s2) (testName s2 +:+ ".html"))
         = Some (Bytes doc)) ∧
  (∀ (r1 r2 : R.t) testName testerName now,
     let cases (r : R.t) :=
       (R.successes r).*1 ++ (R.failures r).*1 ++ (R.errors r).*1 in
     NoDup (C.testCaseID <$> cases r1) → cases r1 ≡ₚ cases r2 →
     document testName testerName now (allTestCases r1) =
     document testName testerName now (allTestCases r2)) ∧
  (∀ testName testerName cases,
     ∃ pre post, ∀ now,
       document testName testerName now cases = pre +:+ now +:+ post).
Proof.
  split; [|split].
  - intros s1 s2 r w1 w2 w1' w2' Hn Ht Hnow H1 H2.
    apply writeReport_document in H1, H2.
    exists (document (testName s1) (testerName s1) (now w1) (allTestCases r)).
    split; [done|]. by rewrite Hn, Ht, Hnow.
  - intros r1 r2 tn tr now cases Hnd Hp. unfold allTestCases.
    subst cases. simpl in *.
    by rewrite (sort_by_set C.testCaseID _ _ Hnd Hp).
  - apply document_around_timestamp.
Qed.

(** Writing the report of the sample run twice in a row. *)
Lemma report_is_deterministic_witness :
  files (fs Sample.w_first) !! ["home"; "qa"; "Report.html"] =
  files (fs Sample.w_second) !! ["home"; "qa"; "Report.html"].
Proof.
  destruct report_is_deterministic as (H1 & _ & _).
  destruct (H1 Sample.suite Sample.suite Sample.result Sample.w0
              Sample.w_first Sample.w_first Sample.w_second)
    as (doc & Hd1 & Hd2); [vm_compute; reflexivity..|].
  etrans; [exact Hd1|]. symmetry. exact Hd2.
Defined.

End Determinism.

(** ** Paths *)

Module Paths.
Import Py OS Spec.

Lemma split_sep_nonempty s : split_sep s ≠ [].
Proof.
  destruct s as [|c s]; simpl; [done|].
  destruct (Ascii.eqb c "/"); [done|]. by destruct (split_sep s).
Qed.

Lemma split_sep_plain c : has_sep c = false → split_sep c = [c].
Proof.
  induction c as [|a c IH]; simpl; [done|].
  intros [Ha Hc]%orb_false_elim. rewrite Ha, (IH Hc). done.
Qed.

Lemma split_sep_app_sep a b :
  split_sep (a +:+ String "/" b) = split_sep a ++ split_sep b.
Proof.
  induction a as [|c a IH]; [done|].
  change (split_sep (String c (a +:+ String "/" b)) =
          split_sep (String c a) ++ split_sep b).
  simpl. rewrite IH. destruct (Ascii.eqb c "/"); [done|].
  pose proof (split_sep_nonempty a). by destruct (split_sep a).
Qed.

(** Appending a text without separator extends the last component. *)
Lemma split_sep_app_plain a x :
  has_sep x = false →
  split_sep (a +:+ x) =
  removelast (split_sep a) ++ [List.last (split_sep a) "" +:+ x].
Proof.
  intros Hx. induction a as [|c a IH].
  - change (split_sep x = [x]). by apply split_sep_plain.
  - change (split_sep (String c (a +:+ x)) =
            removelast (split_sep (String c a)) ++
            [List.last (split_sep (String c a)) "" +:+ x]).
    simpl split_sep. rewrite IH.
    pose proof (split_sep_nonempty a) as Hne.
    destruct (Ascii.eqb c "/").
    + destruct (split_sep a) as [|y ys]; [done|]. done.
    + destruct (split_sep a) as [|y ys]; [done|].
      destruct ys as [|z zs]; [done|]. done.
Qed.

Lemma split_sep_last a :
  split_sep a = removelast (split_sep a) ++ [List.last (split_sep a) ""].
Proof. apply app_removelast_last, split_sep_nonempty. Qed.

Lemma ends_with_sep_last a :
  ends_with_sep a = true → List.last (split_sep a) "" = "".
Proof.
  induction a as [|c a IH]; [done|].
  destruct a as [|d a'].
  - simpl. intros ->. done.
  - intros H. change (ends_with_sep (String d a') = true) in H.
    specialize (IH H). simpl split_sep in *.
    pose proof (split_sep_nonempty a') as Hne.
    destruct (Ascii.eqb c "/"), (Ascii.eqb d "/");
      destruct (split_sep a') as [|y [|z zs]]; done.
Qed.

Lemma starts_with_sep_app a x :
  a ≠ "" → starts_with_sep (a +:+ x) = starts_with_sep a.
Proof. by destruct a. Qed.

Lemma plain_relative n : plain n → starts_with_sep n = false.
Proof.
  intros (Hne & _ & _ & Hs). destruct n as [|c n]; [done|]. simpl in *.
  apply orb_false_elim in Hs as [Hc _].
  destruct c as [[] [] [] [] [] [] [] []]; done.
Qed.

Lemma norm_step_plain at_ n : plain n → norm_step at_ n = at_ ++ [n].
Proof.
  intros (H1 & H2 & H3 & _). unfold norm_step.
  apply String.eqb_neq in H1, H2, H3. by rewrite H1, H2, H3.
Qed.

Lemma fold_norm_plain rel : ∀ at_,
  Forall plain rel → fold_left norm_step rel at_ = at_ ++ rel.
Proof.
  induction rel as [|n rel IH]; intros at_ H; simpl.
  - by rewrite app_nil_r.
  - apply Forall_cons in H as [Hn H].
    rewrite norm_step_plain, IH by done. by rewrite <- app_assoc.
Qed.

(** Joining a plain name to a path enters that name. *)
Lemma resolve_pjoin_plain cwd a n :
  plain n → resolve cwd (pjoin a n) = resolve cwd a ++ [n].
Proof.
  intros Hn. pose proof (plain_relative n Hn) as Hrel.
  destruct Hn as (Hne & H2 & H3 & Hs).
  assert (plain n) as Hn by done.
  unfold pjoin. rewrite Hrel. destruct (String.eqb_spec a "") as [->|Ha].
  - simpl. change ("" +:+ n) with n. unfold resolve. rewrite Hrel. simpl.
    rewrite split_sep_plain by done. simpl. by apply norm_step_plain.
  - simpl. destruct (ends_with_sep a) eqn:E.
    + unfold resolve. rewrite starts_with_sep_app by done.
      rewrite split_sep_app_plain by done.
      rewrite (ends_with_sep_last a E). change ("" +:+ n) with n.
      rewrite fold_left_app. simpl. rewrite norm_step_plain by done.
      f_equal. rewrite (split_sep_last a) at 2.
      rewrite (ends_with_sep_last a E), fold_left_app. done.
    + unfold resolve.
      change (a +:+ "/" +:+ n) with (a +:+ String "/" n).
      rewrite starts_with_sep_app by done.
      rewrite split_sep_app_sep, fold_left_app, split_sep_plain by done.
      simpl. by apply norm_step_plain.
Qed.

Lemma resolve_walk_name cwd rel : ∀ top,
  Forall plain rel → resolve cwd (walk_name top rel) = resolve cwd top ++ rel.
Proof.
  unfold walk_name. induction rel as [|n rel IH]; intros top H; simpl.
  - by rewrite app_nil_r.
  - apply Forall_cons in H as [Hn H].
    rewrite IH, resolve_pjoin_plain by done. by rewrite <- app_assoc.
Qed.

Lemma string_app_nonempty_r a n : n ≠ "" → a +:+ n ≠ "".
Proof. destruct a; [done|]. done. Qed.

Lemma pjoin_nonempty a n : n ≠ "" → pjoin a n ≠ "".
Proof.
  intros Hn. unfold pjoin. repeat case_match; try done;
    try (by apply string_app_nonempty_r).
Qed.

Lemma walk_name_nonempty rel : ∀ top,
  top ≠ "" → Forall plain rel → walk_name top rel ≠ "".
Proof.
  unfold walk_name. induction rel as [|n rel IH]; intros top Ht H; simpl.
  - done.
  - apply Forall_cons in H as [Hn H]. apply IH; [|done].
    apply pjoin_nonempty, Hn.
Qed.

(** *** The report file and the archive are siblings *)

Lemma norm_step_push at_ c :
  c ≠ "" → c ≠ "." → c ≠ ".." → norm_step at_ c = at_ ++ [c].
Proof.
  intros H1 H2 H3. unfold norm_step.
  apply String.eqb_neq in H1, H2, H3. by rewrite H1, H2, H3.
Qed.

Lemma string_length_app a b :
  String.length (a +:+ b) = (String.length a + String.length b)%nat.
Proof.
  induction a as [|c a IH]; [done|].
  change (S (String.length (a +:+ b)) = S (String.length a + String.length b)).
  by rewrite IH.
Qed.

Lemma string_app_nil_r a : a +:+ "" = a.
Proof.
  induction a as [|c a IH]; [done|].
  change (String c (a +:+ "") = String c a). by rewrite IH.
Qed.

Lemma resolve_suffix cwd base x :
  has_sep x = false → starts_with_sep x = false →
  (3 ≤ String.length x)%nat →
  resolve cwd (base +:+ x) =
  stem cwd base ++ [List.last (split_sep base) "" +:+ x].
Proof.
  intros Hs Hrel Hlen. unfold resolve, stem.
  assert (starts_with_sep (base +:+ x) = starts_with_sep base) as ->.
  { destruct base; [exact Hrel|done]. }
  rewrite split_sep_app_plain, fold_left_app by done. simpl.
  apply norm_step_push; intros H; apply (f_equal String.length) in H;
    rewrite string_length_app in H; simpl in H; lia.
Qed.

Lemma pjoin_suffix o t x :
  starts_with_sep x = false → pjoin o (t +:+ x) = pjoin o t +:+ x.
Proof.
  intros Hrel. unfold pjoin.
  assert (starts_with_sep (t +:+ x) = starts_with_sep t) as ->.
  { destruct t; [exact Hrel|done]. }
  destruct (starts_with_sep t); [done|].
  destruct (String.eqb o "" || ends_with_sep o).
  - by rewrite Determinism.string_app_assoc.
  - by rewrite !Determinism.string_app_assoc.
Qed.

Lemma html_zip_siblings_named cwd o t :
  ∃ dir l,
    resolve cwd (pjoin o (t +:+ ".html")) = dir ++ [l +:+ ".html"] ∧
    resolve cwd (pjoin o (t +:+ ".zip")) = dir ++ [l +:+ ".zip"].
Proof.
  exists (stem cwd (pjoin o t)), (List.last (split_sep (pjoin o t)) "").
  rewrite !pjoin_suffix by done.
  by rewrite !resolve_suffix by (done || simpl; lia).
Qed.

Lemma html_zip_siblings cwd o t :
  ∃ dir h z,
    resolve cwd (pjoin o (t +:+ ".html")) = dir ++ [h] ∧
    resolve cwd (pjoin o (t +:+ ".zip")) = dir ++ [z] ∧
    h ≠ z.
Proof.
  exists (stem cwd (pjoin o t)),
    (List.last (split_sep (pjoin o t)) "" +:+ ".html"),
    (List.last (split_sep (pjoin o t)) "" +:+ ".zip").
  rewrite !pjoin_suffix by done.
  rewrite !resolve_suffix by (done || simpl; lia).
  split; [done|]. split; [done|].
  by intros H%(inj (String.append _)).
Qed.

Lemma prefix_snoc_inv {A} (r x : list A) (a : A) :
  r `prefix_of` x ++ [a] → r = x ++ [a] ∨ r `prefix_of` x.
Proof.
  intros [k Hk]. destruct (decide (k = [])) as [->|Hne].
  - left. by rewrite app_nil_r in Hk.
  - right. destruct (exists_last Hne) as (k' & b & ->).
    rewrite app_assoc in Hk. apply app_inj_tail in Hk as [-> _].
    by exists k'.
Qed.

(** A directory above one sibling that is not that sibling is above the
    other. *)
Lemma prefix_sibling {A} (r dir : list A) (h z : A) :
  r `prefix_of` dir ++ [z] → r ≠ dir ++ [z] → r `prefix_of` dir ++ [h].
Proof.
  intros [H|H]%prefix_snoc_inv Hne; [done|]. by apply prefix_app_r.
Qed.

End Paths.

(** ** Archiving *)

Module Archive.
Import Py OS Spec Paths.
Import ReportingTestSuite.

(** *** What the file operations do when they return *)

Lemma remove_inv p w w' :
  remove p w = Ok tt w' →
  cwd w' = cwd w ∧ now w' = now w ∧ dirs (fs w') = dirs (fs w) ∧
  files (fs w') = delete (resolve (cwd w) p) (files (fs w)) ∧
  is_Some (files (fs w) !! resolve (cwd w) p).
Proof.
  unfold remove. repeat case_match; try done. intros [= <-]. simpl.
  repeat split; try done.
  match goal with H : negb (is_file _ _) = false |- _ =>
    apply negb_false_iff in H; unfold is_file in H;
    by apply bool_decide_eq_true in H end.
Qed.

Lemma write_file_inv p c w w' :
  write_file p c w = Ok tt w' →
  cwd w' = cwd w ∧ now w' = now w ∧ dirs (fs w') = dirs (fs w) ∧
  files (fs w') = <[resolve (cwd w) p := c]> (files (fs w)) ∧
  resolve (cwd w) p ∉ dirs (fs w).
Proof.
  unfold write_file. repeat case_match; try done. intros [= <-]. simpl.
  repeat split; try done.
  match goal with H : is_dir _ _ = false |- _ =>
    unfold is_dir in H; apply bool_decide_eq_false in H; tauto end.
Qed.

Lemma rmtree_inv p w w' :
  rmtree p w = Ok tt w' →
  cwd w' = cwd w ∧ p ≠ "" ∧
  is_dir (fs w) (resolve (cwd w) p) = true ∧
  files (fs w) !! resolve (cwd w) p = None ∧
  files (fs w') =
    filter (λ kv, ¬ resolve (cwd w) p `prefix_of` kv.1) (files (fs w)) ∧
  dirs (fs w') =
    filter (λ q, ¬ resolve (cwd w) p `prefix_of` q) (dirs (fs w)).
Proof.
  unfold rmtree. repeat case_match; try done. intros [= <-]. simpl.
  repeat split; try done.
  - by intros ->.
  - match goal with H : negb (is_dir _ _) = false |- _ =>
      by apply negb_false_iff in H end.
  - match goal with H : is_file _ _ = false |- _ =>
      unfold is_file in H; apply bool_decide_eq_false in H;
      by apply eq_None_not_Some end.
Qed.

Lemma liftZ_inv {A} (m : M World A) z a z' :
  liftZ m z = Ok a z' →
  m (zworld z) = Ok a (zworld z') ∧ zmembers z' = zmembers z.
Proof.
  unfold liftZ, zoom. destruct (m (zworld z)); [|done]. by intros [= <- <-].
Qed.

Lemma read_file_inv p w c w' :
  read_file p w = Ok c w' →
  w' = w ∧ files (fs w) !! resolve (cwd w) p = Some c.
Proof. unfold read_file. repeat case_match; try done. by intros [= <- <-]. Qed.

Lemma zf_write_all_inv paths : ∀ z z',
  zf_write_all paths z = Ok tt z' →
  zworld z' = zworld z ∧
  ∃ ms, zmembers z' = zmembers z ++ ms ∧
        Forall2 (λ p m, m.1 = p ∧
                   files (fs (zworld z)) !! resolve (cwd (zworld z)) p
                   = Some m.2) paths ms.
Proof.
  induction paths as [|p paths IH]; intros z z' H; simpl in H.
  - injection H as <-. split; [done|]. exists []. by rewrite app_nil_r.
  - apply Rollup.bind_Ok in H as ([] & z1 & H1 & H).
    unfold zf_write in H1.
    apply Rollup.bind_Ok in H1 as (c & z2 & Hr & Hm).
    apply liftZ_inv in Hr as [Hr Hmem]. apply read_file_inv in Hr as [Hw Hc].
    injection Hm as <-. apply IH in H as [Hw' (ms & Hms & Hall)]. simpl in *.
    split; [congruence|]. exists ((p, c) :: ms).
    rewrite Hms, Hmem, <- app_assoc. split; [done|].
    constructor; [done|]. by rewrite <- Hw.
Qed.

(** *** The run of [writeReport] with [zipReport = True], step by step *)

Lemma writeReport_zip_inv (s : t) (r : R.t) (w w' : World) :
  writeReport s r true w = Ok tt w' →
  let top := screenshot_path s in
  let filePath := pjoin (outPath s) (testName s +:+ ".html") in
  let zipPath := pjoin (outPath s) (testName s +:+ ".zip") in
  let R := resolve (cwd w) top in
  let ph := resolve (cwd w) filePath in
  let pz := resolve (cwd w) zipPath in
  let doc := Bytes (document (testName s) (testerName s) (now w)
                      (allTestCases r)) in
  ∃ files_a ms,
    (files_a = files (fs w) ∨ files_a = delete ph (files (fs w))) ∧
    let files_c := <[pz := Zip []]> (<[ph := doc]> files_a) in
    let files_f := delete ph (filter (λ kv, ¬ R `prefix_of` kv.1) files_c) in
    top ≠ "" ∧ is_dir (fs w) R = true ∧ files_c !! R = None ∧
    (ph ∉ dirs (fs w)) ∧
    Forall2 (λ p m, m.1 = p ∧ files_c !! resolve (cwd w) p = Some m.2)
      (((λ kv, walk_name top (drop (length R) kv.1)) <$>
          map_to_list (filter (λ kv, under R kv.1) files_c)) ++ [filePath])
      ms ∧
    is_Some (filter (λ kv, ¬ R `prefix_of` kv.1) files_c !! ph) ∧
    cwd w' = cwd w ∧
    dirs (fs w') = filter (λ q, ¬ R `prefix_of` q) (dirs (fs w)) ∧
    files (fs w') =
      if bool_decide (is_Some (files_f !! pz))
      then <[pz := Zip ms]> files_f else files_f.
Proof.
  intros H top filePath zipPath R ph pz doc. unfold writeReport in H.
  fold filePath zipPath top in H.
  apply Rollup.bind_Ok in H as (w0 & w0' & [= <- <-] & H).
  apply Rollup.bind_Ok in H as ([] & wa & Ha & H).
  apply Rollup.bind_Ok in H as (wa0 & wa' & [= <- <-] & H).
  apply Rollup.bind_Ok in H as ([] & wb & Hb & H).
  assert (cwd wa = cwd w ∧ now wa = now w ∧ dirs (fs wa) = dirs (fs w) ∧
          (files (fs wa) = files (fs w) ∨
           files (fs wa) = delete ph (files (fs w)))) as (Ca & Na & Da & Fa).
  { destruct (exists_ w filePath).
    - apply remove_inv in Ha as (? & ? & ? & ? & _). auto.
    - injection Ha as <-. auto. }
  apply write_file_inv in Hb as (Cb & Nb & Db & Fb & Hphd).
  rewrite Ca in Fb, Hphd. rewrite Na in Fb. fold ph doc in Fb, Hphd.
  unfold with_ZipFile in H.
  apply Rollup.bind_Ok in H as ([] & wc & Hc & H).
  apply write_file_inv in Hc as (Cc & Nc & Dc & Fc & _).
  rewrite Cb, Ca in Fc. fold pz in Fc.
  match type of H with
  | match ?x with _ => _ end = _ => destruct x as [[] zf|] eqn:Hblock
  end; [|done].
  injection H as <-.
  apply Rollup.bind_Ok in Hblock as ([] & z1 & Hp & Hblock).
  apply liftZ_inv in Hp as [Hp Hm1]. unfold print, modify in Hp.
  injection Hp as Hp. simpl in Hm1.
  apply Rollup.bind_Ok in Hblock as (z1' & z1'' & [= <- <-] & Hblock).
  apply Rollup.bind_Ok in Hblock as ([] & z2 & Hw & Hblock).
  apply zf_write_all_inv in Hw as [Hw2 (ms & Hms & Hall)].
  apply Rollup.bind_Ok in Hblock as ([] & z3 & Hrm & Hblock).
  apply liftZ_inv in Hrm as [Hrm Hm3].
  apply rmtree_inv in Hrm as (C3 & Htop & Hdir & HR & F3 & D3).
  apply liftZ_inv in Hblock as [Hre Hmf].
  apply remove_inv in Hre as (Cf & _ & Df & Ff & Hsome).
  assert (cwd (zworld z1) = cwd w) as C1.
  { rewrite <- Hp. simpl. congruence. }
  assert (files (fs (zworld z1)) = <[pz:=Zip []]> (<[ph:=doc]> (files (fs wa))))
    as F1.
  { rewrite <- Hp. simpl. congruence. }
  assert (dirs (fs (zworld z1)) = dirs (fs w)) as D1.
  { rewrite <- Hp. simpl. congruence. }
  rewrite Hw2 in *. rewrite C1 in *. fold R in Hdir, HR, F3, D3.
  rewrite F1 in *. rewrite D1 in *.
  exists (files (fs wa)), ms. split; [done|]. simpl.
  split; [done|]. split.
  { unfold is_dir in *. by rewrite D1 in Hdir. }
  split; [done|]. split; [by rewrite <- Da|]. split.
  { unfold walk_files in Hall. rewrite C1, F1 in Hall. fold R in Hall.
    destruct (String.eqb_spec top "") as [|_]; [done|]. simpl in Hall.
    rewrite Hdir in Hall. exact Hall. }
  rewrite C3, F3 in *. fold ph in Hsome, Ff.
  split; [done|]. unfold zf_close. rewrite Cf. fold pz.
  unfold is_file. rewrite Ff, Hmf, Hm3, Hms, Hm1. simpl.
  destruct (bool_decide _) eqn:E; simpl.
  - split; [done|]. split; [congruence|]. done.
  - split; [done|]. split; [congruence|]. done.
Qed.

Lemma under_drop (r q : list string) :
  under r q → r ++ drop (length r) q = q ∧ drop (length r) q ≠ [].
Proof.
  intros [[k ->] Hne]. rewrite drop_app_length. split; [done|].
  intros ->. by rewrite app_nil_r in Hne.
Qed.

Lemma Forall2_names {A} (P : string → A → Prop) paths
    (ms : list (string * A)) :
  Forall2 (λ p m, m.1 = p ∧ P p m.2) paths ms → ms.*1 = paths.
Proof.
  induction 1 as [|p m ps ms [Hm _] _ IH]; [done|].
  rewrite fmap_cons. by rewrite Hm, IH.
Qed.

(** What the archive holds and what is left, in full. *)
Lemma writeReport_zip_spec (s : t) (r : R.t) (w w' : World) :
  fs_wf (fs w) →
  writeReport s r true w = Ok tt w' →
  let top := screenshot_path s in
  let filePath := pjoin (outPath s) (testName s +:+ ".html") in
  let zipPath := pjoin (outPath s) (testName s +:+ ".zip") in
  let R := resolve (cwd w) top in
  let doc := Bytes (document (testName s) (testerName s) (now w)
                      (allTestCases r)) in
  ∃ members,
    files (fs w') !! resolve (cwd w) zipPath = Some (Zip members) ∧
    NoDup (resolve (cwd w) <$> members.*1) ∧
    (filePath, doc) ∈ members ∧
    (∀ q c, under R q →
       (files (fs w) !! q = Some c ↔
        ∃ name, (name, c) ∈ members ∧ resolve (cwd w) name = q)) ∧
    (∀ name c, (name, c) ∈ members →
       (name = filePath ∧ c = doc) ∨
       ∃ rel, rel ≠ [] ∧ name = walk_name top rel ∧
              resolve (cwd w) name = R ++ rel) ∧
    (∀ q, R `prefix_of` q →
       files (fs w') !! q = None ∧ q ∉ dirs (fs w')) ∧
    files (fs w') !! resolve (cwd w) filePath = None ∧
    (resolve (cwd w) filePath ∉ dirs (fs w')) ∧
    (∀ q, ¬ R `prefix_of` q → q ≠ resolve (cwd w) filePath →
          q ≠ resolve (cwd w) zipPath →
          files (fs w') !! q = files (fs w) !! q) ∧
    dirs (fs w') = filter (λ q, ¬ R `prefix_of` q) (dirs (fs w)) ∧
    cwd w' = cwd w.
Proof.
  intros [Hwf _] Hrun top filePath zipPath R doc.
  destruct (writeReport_zip_inv s r w w' Hrun)
    as (files_a & ms & Hfa & Htop & Hdir & HR & Hphd & Hall & Hsome & Hcwd
        & Hdirs & Hfiles).
  fold top filePath zipPath R doc in Htop, Hdir, HR, Hall, Hsome, Hdirs,
    Hfiles, Hphd, Hfa.
  set (ph := resolve (cwd w) filePath) in *.
  set (pz := resolve (cwd w) zipPath) in *.
  set (files_c := <[pz := Zip []]> (<[ph := doc]> files_a)) in *.
  (* the document is not below the root, and neither is the archive *)
  assert (¬ R `prefix_of` ph) as Hph.
  { destruct Hsome as [c Hc]. by apply map_lookup_filter_Some in Hc as [_ ?]. }
  destruct (html_zip_siblings (cwd w) (outPath s) (testName s))
    as (dir & h & z & Eh & Ez & Hhz).
  fold filePath ph in Eh. fold zipPath pz in Ez.
  assert (ph ≠ pz) as Hne.
  { rewrite Eh, Ez. by intros [_ ?]%app_inj_tail. }
  assert (¬ R `prefix_of` pz) as Hpz.
  { intros Hpre. apply Hph. rewrite Eh. rewrite Ez in Hpre.
    apply (prefix_sibling _ _ h) in Hpre; [done|].
    rewrite <- Ez. intros E. rewrite E in HR. unfold files_c in HR.
    by rewrite lookup_insert_eq in HR. }
  (* the files below the root are those of the start *)
  assert (∀ q, q ≠ ph → q ≠ pz → files_c !! q = files (fs w) !! q) as Hsame.
  { intros q H1 H2. unfold files_c. rewrite !lookup_insert_ne by done.
    destruct Hfa as [->| ->]; [done|]. by rewrite lookup_delete_ne. }
  assert (∀ q, under R q → files_c !! q = files (fs w) !! q) as Hunder.
  { intros q [Hq _]. apply Hsame; intros ->; done. }
  set (FM := filter (λ kv, under R kv.1) files_c) in *.
  assert (∀ kv, kv ∈ map_to_list FM →
            under R kv.1 ∧ files (fs w) !! kv.1 = Some kv.2 ∧
            resolve (cwd w) (walk_name top (drop (length R) kv.1)) = kv.1)
    as Hwalk.
  { intros [q c] Hin. apply elem_of_map_to_list in Hin.
    apply map_lookup_filter_Some in Hin as [Hc Hu]. simpl in *.
    rewrite (Hunder q Hu) in Hc. split; [done|]. split; [done|].
    destruct (under_drop R q Hu) as [Hq _].
    rewrite resolve_walk_name; [done|].
    apply Forall_drop. by apply (Hwf q c). }
  (* the archive was still there when it was closed *)
  assert (files (fs w') = <[pz := Zip ms]>
            (delete ph (filter (λ kv, ¬ R `prefix_of` kv.1) files_c)))
    as Hfs.
  { rewrite Hfiles. rewrite bool_decide_eq_true_2; [done|].
    exists (Zip []). rewrite lookup_delete_ne by done.
    apply map_lookup_filter_Some. split; [|done].
    unfold files_c. by rewrite lookup_insert_eq. }
  (* the members: one per walked file, then the document *)
  apply Forall2_app_inv_l in Hall as (ms1 & ms2 & Hall1 & Hall2 & ->).
  apply Forall2_cons_inv_l in Hall2 as (m & ms' & [Hm1 Hm2] & Hnil & ->).
  apply Forall2_nil_inv_l in Hnil as ->.
  assert (m = (filePath, doc)) as ->.
  { destruct m as [n c]. simpl in *. subst n. f_equal.
    fold ph in Hm2. unfold files_c in Hm2.
    rewrite lookup_insert_ne, lookup_insert_eq in Hm2 by done. congruence. }
  clear Hm1 Hm2.
  assert (ms1.*1 = (λ kv, walk_name top (drop (length R) kv.1)) <$>
                     map_to_list FM) as Hnames.
  { by apply (Forall2_names
                (λ p c, files_c !! resolve (cwd w) p = Some c)). }
  assert (∀ name c, (name, c) ∈ ms1 →
            ∃ kv, kv ∈ map_to_list FM ∧
                  name = walk_name top (drop (length R) kv.1) ∧ c = kv.2)
    as Hms1.
  { intros name c Hin.
    apply list_elem_of_lookup in Hin as [i Hi].
    destruct (Forall2_lookup_r _ _ _ _ _ Hall1 Hi) as (p & Hp & Hn & Hc).
    apply list_lookup_fmap_Some in Hp as (kv & -> & Hkv). simpl in *.
    apply list_elem_of_lookup_2 in Hkv. exists kv. split; [done|].
    split; [done|]. destruct (Hwalk kv Hkv) as (Hu & Hf & Hres).
    rewrite Hres, (Hunder _ Hu), Hf in Hc. congruence. }
  exists (ms1 ++ [(filePath, doc)]).
  split; [by rewrite Hfs, lookup_insert_eq|]. split.
  { rewrite fmap_app, fmap_app, Hnames. simpl.
    assert (resolve (cwd w) <$>
              ((λ kv, walk_name top (drop (length R) kv.1)) <$>
                 map_to_list FM) = (map_to_list FM).*1) as ->.
    { rewrite <- list_fmap_compose. apply Forall_fmap_ext_1, Forall_forall.
      intros kv Hkv. simpl. by apply Hwalk. }
    apply NoDup_app. split; [apply NoDup_fst_map_to_list|].
    split; [|apply NoDup_singleton].
    intros q Hq ->%list_elem_of_singleton.
    apply list_elem_of_fmap in Hq as (kv & Hq & Hkv).
    destruct (Hwalk kv Hkv) as ([Hu _] & _ & _). rewrite <- Hq in Hu. done. }
  split; [apply elem_of_app; right; left|]. split.
  { intros q c Hu. split.
    - intros Hq.
      assert ((q, c) ∈ map_to_list FM) as Hin.
      { apply elem_of_map_to_list, map_lookup_filter_Some.
        split; [|done]. by rewrite (Hunder q Hu). }
      apply list_elem_of_lookup in Hin as [i Hi].
      assert (((λ kv, walk_name top (drop (length R) kv.1)) <$>
                 map_to_list FM) !! i
              = Some (walk_name top (drop (length R) q))) as Hp.
      { by rewrite list_lookup_fmap, Hi. }
      destruct (Forall2_lookup_l _ _ _ _ _ Hall1 Hp) as ([n c'] & Hm & Hn & Hc).
      simpl in *. subst n.
      apply list_elem_of_lookup_2 in Hi.
      destruct (Hwalk _ Hi) as (_ & _ & Hres). simpl in Hres.
      rewrite Hres, (Hunder q Hu), Hq in Hc. injection Hc as <-.
      exists (walk_name top (drop (length R) q)). split; [|done].
      apply elem_of_app. left. by eapply list_elem_of_lookup_2.
    - intros (name & Hin & Hres). apply elem_of_app in Hin as [Hin|Hin].
      + destruct (Hms1 name c Hin) as (kv & Hkv & -> & ->).
        destruct (Hwalk kv Hkv) as (_ & Hf & Hres'). congruence.
      + apply list_elem_of_singleton in Hin as [= -> ->].
        destruct Hu as [Hu _]. fold ph in Hres. by subst q. }
  split.
  { intros name c [Hin|Hin]%elem_of_app.
    - right. destruct (Hms1 name c Hin) as (kv & Hkv & -> & ->).
      destruct (Hwalk kv Hkv) as (Hu & _ & Hres).
      destruct (under_drop R kv.1 Hu) as [Hq Hne'].
      exists (drop (length R) kv.1). split; [done|]. split; [done|].
      by rewrite Hres, Hq.
    - left. by apply list_elem_of_singleton in Hin as [= -> ->]. }
  split.
  { intros q Hq. split.
    - rewrite Hfs, lookup_insert_ne by (by intros <-).
      apply lookup_delete_None. right.
      apply map_lookup_filter_None. right. intros c _. simpl. tauto.
    - rewrite Hdirs. intros Hin. apply elem_of_filter in Hin as [Hn _]. done. }
  split; [rewrite Hfs, lookup_insert_ne by done; apply lookup_delete_eq|].
  split.
  { rewrite Hdirs. intros Hin. apply elem_of_filter in Hin as [_ Hin]. done. }
  split; [|done].
  intros q Hq H1 H2. rewrite Hfs, lookup_insert_ne by done.
  rewrite lookup_delete_ne by done. rewrite <- (Hsame q H1 H2).
  destruct (files_c !! q) as [c|] eqn:E.
  - by apply map_lookup_filter_Some.
  - apply map_lookup_filter_None. by left.
Qed.


(** C8. When [writeReport] is called with [zipReport = True] on a
    well-formed file system and returns, the archive written next to the
    document holds, each once, the rendered document and every file that was
    below the suite's screenshot root, under the path by which the walk
    reached it (the root as given, then the names down to the file), and
    nothing else; afterwards nothing is left at or below the screenshot root
    and the loose document is gone. *)
Theorem archive_is_screenshot_tree_plus_document
    (s : t) (r : R.t) (w w' : World) :
  fs_wf (fs w) →
  writeReport s r true w = Ok tt w' →
  let top := screenshot_path s in
  let filePath := pjoin (outPath s) (testName s +:+ ".html") in
  let zipPath := pjoin (outPath s) (testName s +:+ ".zip") in
  let R := resolve (cwd w) top in
  let doc := Bytes (document (testName s) (testerName s) (now w)
                      (allTestCases r)) in
  ∃ members,
    files (fs w') !! resolve (cwd w) zipPath = Some (Zip members) ∧
    NoDup members.*1 ∧
    NoDup (resolve (cwd w) <$> members.*1) ∧
    (filePath, doc) ∈ members ∧
    (∀ q c, under R q →
       (files (fs w) !! q = Some c ↔
        ∃ name, (name, c) ∈ members ∧ resolve (cwd w) name = q)) ∧
    (∀ name c, (name, c) ∈ members →
       (name = filePath ∧ c = doc) ∨
       ∃ rel, rel ≠ [] ∧ name = walk_name top rel ∧
              resolve (cwd w) name = R ++ rel) ∧
    (∀ q, R `prefix_of` q →
       files (fs w') !! q = None ∧ q ∉ dirs (fs w')) ∧
    files (fs w') !! resolve (cwd w) filePath = None ∧
    resolve (cwd w) filePath ∉ dirs (fs w').
Proof.
  intros Hwf Hrun top filePath zipPath R doc.
  destruct (writeReport_zip_spec s r w w' Hwf Hrun)
    as (members & Hzip & Hnd & Hdoc & Hall & Honly & Hgone & Hhtml & Hhd & _).
  exists members. split; [exact Hzip|]. split.
  { eapply NoDup_fmap_1. exact Hnd. }
  split; [exact Hnd|]. split; [exact Hdoc|]. split; [exact Hall|].
  split; [exact Honly|]. split; [exact Hgone|]. split; [exact Hhtml|].
  exact Hhd.
Qed.

(** The report of the sample run, archived with the two screenshots that a
    case left below the screenshot root. *)
Lemma archive_is_screenshot_tree_plus_document_witness :
  fs_wf (fs Sample.w_shots) ∧
  writeReport Sample.suite Sample.result true Sample.w_shots
    = Ok tt Sample.w_zipped ∧
  ∃ members,
    files (fs Sample.w_zipped) !! ["home"; "qa"; "Report.zip"]
      = Some (Zip members) ∧
    members.*1 = ["./.screenshots/TC001/2 - login.png";
                  "./.screenshots/TC001/1 - login.png";
                  "./Report.html"] ∧
    files (fs Sample.w_zipped) !! ["home"; "qa"; "Report.html"] = None.
Proof.
  assert (fs_wf (fs Sample.w_shots)) as Hwf.
  { apply (bool_decide_unpack _). vm_compute. exact I. }
  assert (writeReport Sample.suite Sample.result true Sample.w_shots
          = Ok tt Sample.w_zipped) as Hrun.
  { vm_compute. reflexivity. }
  split; [exact Hwf|]. split; [exact Hrun|].
  destruct (archive_is_screenshot_tree_plus_document
              Sample.suite Sample.result Sample.w_shots Sample.w_zipped
              Hwf Hrun) as (members & Hzip & _ & _ & _ & _ & _ & _ & Hgone & _).
  exists members. split; [exact Hzip|]. split; [|exact Hgone].
  vm_compute in Hzip. injection Hzip as <-. vm_compute. reflexivity.
Defined.

End Archive.

(** ** Where the screenshots are and what the archive touches *)

Module Frame.
Import Py OS Spec Paths Archive.
Import ReportingTestSuite.

Lemma has_sep_app a b : has_sep (a +:+ b) = has_sep a || has_sep b.
Proof.
  induction a as [|c a IH]; [done|].
  change (Ascii.eqb c "/" || has_sep (a +:+ b) =
          Ascii.eqb c "/" || has_sep a || has_sep b).
  by rewrite IH, orb_assoc.
Qed.

Lemma digits_no_sep s : all_digits s = true → has_sep s = false.
Proof.
  induction s as [|c s IH]; [done|]. simpl.
  intros [Hc Hs]%andb_prop. rewrite (IH Hs), orb_false_r.
  by destruct c as [[] [] [] [] [] [] [] []].
Qed.

(** The file name of a screenshot with a description without separator is
    a plain name. *)
Lemma screenshot_name_plain n d :
  has_sep d = false → plain (C.screenshot_name Gen2 n d).
Proof.
  intros Hd. unfold C.screenshot_name.
  assert (∀ x, str_nat (n + 1) +:+ " - " +:+ d +:+ ".png" = x →
               (String.length x ≤ 2)%nat → False) as Hlen.
  { intros x <-. rewrite !string_length_app. simpl. lia. }
  repeat split; try (intros H; by eapply Hlen; [exact H|simpl; lia]).
  rewrite !has_sep_app, Hd.
  by rewrite (digits_no_sep _ (Screenshots.str_nat_digits _)).
Qed.

(** Names with different extensions differ. *)
Lemma last_char_differs a b (x y : ascii) u v :
  x ≠ y → a +:+ u +:+ String x "" ≠ b +:+ v +:+ String y "".
Proof.
  intros Hxy H. apply (f_equal list_ascii_of_string) in H.
  rewrite !Screenshots.list_ascii_app in H. simpl in H.
  rewrite !app_assoc in H. by apply app_inj_tail in H as [_ ?].
Qed.

Lemma png_not_html a b : a +:+ ".png" ≠ b +:+ ".html".
Proof. by apply (last_char_differs a b "g" "l" ".pn" ".htm"). Qed.

Lemma png_not_zip a b : a +:+ ".png" ≠ b +:+ ".zip".
Proof. by apply (last_char_differs a b "g" "p" ".pn" ".zi"). Qed.

Lemma screenshot_name_not_dot_screenshots n d :
  C.screenshot_name Gen2 n d ≠ ".screenshots".
Proof.
  unfold C.screenshot_name.
  pose proof (Screenshots.str_nat_nonempty (n + 1)) as Hne.
  pose proof (Screenshots.str_nat_digits (n + 1)) as Hd.
  destruct (str_nat (n + 1)) as [|c s]; [done|]. simpl in Hd.
  apply andb_prop in Hd as [Hc _]. intros H.
  change (String c (s +:+ " - " +:+ d +:+ ".png") = ".screenshots") in H.
  injection H as -> _. done.
Qed.

Lemma screenshot_name_png n d :
  ∃ a, C.screenshot_name Gen2 n d = a +:+ ".png".
Proof.
  exists (str_nat (n + 1) +:+ " - " +:+ d). unfold C.screenshot_name.
  by rewrite !Determinism.string_app_assoc.
Qed.

(** C10, where it fails: the output directory is .screenshots (not the
    current directory) and the case is called .screenshots too; its
    screenshot lies below the suite's screenshot root, goes into the archive
    and is deleted. *)
Lemma overlapping_folders_are_archived :
  resolve (cwd Sample.w0) (outPath Sample.suite_dot) ≠ cwd Sample.w0 ∧
  init "Report" "qa" (Some ".screenshots") Sample.w0
    = Ok Sample.suite_dot Sample.w_dot ∧
  files (fs Sample.w_dot_shot) !!
    ["home"; "qa"; ".screenshots"; ".screenshots"; "1 - login.png"]
    = Some (Bytes "screen-image") ∧
  under (resolve (cwd Sample.w0) (screenshot_path Sample.suite_dot))
    ["home"; "qa"; ".screenshots"; ".screenshots"; "1 - login.png"] ∧
  writeReport Sample.suite_dot Sample.result true Sample.w_dot_shot
    = Ok tt Sample.w_dot_zipped ∧
  files (fs Sample.w_dot_zipped) !! ["home"; "qa"; ".screenshots"; "Report.zip"]
    = Some (Zip [(".screenshots/.screenshots/1 - login.png",
                  Bytes "screen-image");
                 (".screenshots/Report.html",
                  Bytes (document "Report" "qa" (now Sample.w0)
                           (allTestCases Sample.result)))]) ∧
  files (fs Sample.w_dot_zipped) !!
    ["home"; "qa"; ".screenshots"; ".screenshots"; "1 - login.png"] = None.
Proof.
  split; [vm_compute; discriminate|].
  split; [vm_compute; reflexivity|].
  split; [vm_compute; reflexivity|].
  split; [apply (bool_decide_unpack _); vm_compute; exact I|].
  split; [vm_compute; reflexivity|].
  split; vm_compute; reflexivity.
Qed.

Lemma resolve_plain cwd n : plain n → resolve cwd n = cwd ++ [n].
Proof.
  intros Hn. unfold resolve. rewrite (plain_relative n Hn).
  destruct Hn as (H1 & H2 & H3 & Hs). rewrite split_sep_plain by done.
  simpl. by apply norm_step_push.
Qed.

Lemma plain_dot_screenshots : plain ".screenshots".
Proof. by apply (bool_decide_unpack _). Qed.

Lemma init_paths testName_ testerName_ outPath_ w s w' :
  init testName_ testerName_ outPath_ w = Ok s w' →
  outPath s = default testName_ outPath_ ∧
  screenshot_path s = pjoin (outPath s) ".screenshots".
Proof.
  unfold init. intros H.
  apply Rollup.bind_Ok in H as (w1 & w1' & _ & H).
  apply Rollup.bind_Ok in H as ([] & w2 & _ & H).
  apply Rollup.bind_Ok in H as (w3 & w3' & _ & H).
  apply Rollup.bind_Ok in H as ([] & w4 & _ & H).
  injection H as <- _. simpl. by destruct outPath_.
Qed.

(** C10 (amended).  (1) A suite's screenshot root, on which the walk and
    the removal of [writeReport] operate, is <outPath>/.screenshots, the
    entry .screenshots of the output directory.  (2) A capture of a case
    writes to ./.screenshots/<testCaseID>/<file name> below the current
    directory (for a plain [testCaseID] and a description without
    separator).  (3) Hence, for every suite whose [outPath] is not the
    current directory, whose screenshot root does not contain the current
    directory and is not the folder ./.screenshots/.screenshots of a case
    called .screenshots, a screenshot of a case lies outside the suite's
    screenshot root, is not a member of the archive, and is still there
    after the cleanup. *)
Theorem case_screenshots_escape_archive :
  (∀ testName_ testerName_ outPath_ w s w',
     init testName_ testerName_ outPath_ w = Ok s w' →
     screenshot_path s = pjoin (outPath s) ".screenshots" ∧
     resolve (cwd w) (screenshot_path s) =
       resolve (cwd w) (outPath s) ++ [".screenshots"]) ∧
  (∀ el d st p st1,
     C._screenshot Gen2 el d st = Ok p st1 →
     plain (C.testCaseID (C.self st)) → has_sep d = false →
     resolve (cwd (C.world st)) p =
       cwd (C.world st) ++
       [".screenshots"; C.testCaseID (C.self st);
        C.screenshot_name Gen2 (length (C.steps (C.self st))) d]) ∧
  (∀ s r w w' id n d png,
     let D := resolve (cwd w) (outPath s) in
     let R := resolve (cwd w) (screenshot_path s) in
     let q := cwd w ++ [".screenshots"; id; C.screenshot_name Gen2 n d] in
     fs_wf (fs w) →
     screenshot_path s = pjoin (outPath s) ".screenshots" →
     plain id → has_sep d = false →
     D ≠ cwd w →
     ¬ R `prefix_of` cwd w →
     ¬ (id = ".screenshots" ∧ D = cwd w ++ [".screenshots"]) →
     files (fs w) !! q = Some png →
     writeReport s r true w = Ok tt w' →
     ¬ R `prefix_of` q ∧
     files (fs w') !! q = Some png ∧
     ∃ members,
       files (fs w') !!
         resolve (cwd w) (pjoin (outPath s) (testName s +:+ ".zip"))
         = Some (Zip members) ∧
       ∀ name c, (name, c) ∈ members → resolve (cwd w) name ≠ q).
Proof.
  split; [|split].
  - intros tn tr op w s w' H. apply init_paths in H as [_ H].
    split; [done|]. rewrite H.
    apply resolve_pjoin_plain, plain_dot_screenshots.
  - intros el d st p st1 H Hid Hd.
    apply Rollup._screenshot_path in H as ->. unfold capture_path.
    rewrite !resolve_pjoin_plain;
      [|done|by apply screenshot_name_plain].
    rewrite (resolve_plain _ _ plain_dot_screenshots).
    by rewrite <- !app_assoc.
  - intros s r w w' id n d png D R q Hwf Hsp Hid Hd HD HRcwd Hdot Hq Hrun.
    assert (R = D ++ [".screenshots"]) as HR.
    { unfold R, D. rewrite Hsp.
      apply resolve_pjoin_plain, plain_dot_screenshots. }
    assert (¬ R `prefix_of` q) as Hout.
    { unfold q.
      change (cwd w ++ [".screenshots"; id; C.screenshot_name Gen2 n d])
        with (cwd w ++ [".screenshots"] ++ [id] ++
              [C.screenshot_name Gen2 n d]).
      rewrite !app_assoc.
      intros [E|H]%prefix_snoc_inv.
      { rewrite HR in E. apply app_inj_tail in E as [_ E].
        by apply (screenshot_name_not_dot_screenshots n d). }
      apply prefix_snoc_inv in H as [E|H].
      { rewrite HR in E. apply app_inj_tail in E as [E1 E2]. by apply Hdot. }
      apply prefix_snoc_inv in H as [E|H]; [|done].
      rewrite HR in E. by apply app_inj_tail in E as [E _]. }
    destruct (html_zip_siblings_named (cwd w) (outPath s) (testName s))
      as (dir & l & Eh & Ez).
    destruct (screenshot_name_png n d) as [a Ea].
    assert (q ≠ resolve (cwd w) (pjoin (outPath s) (testName s +:+ ".html")))
      as Hqh.
    { rewrite Eh. unfold q.
      change (cwd w ++ [".screenshots"; id; C.screenshot_name Gen2 n d])
        with (cwd w ++ [".screenshots"; id] ++
              [C.screenshot_name Gen2 n d]).
      rewrite app_assoc, Ea. intros [_ E]%app_inj_tail.
      by apply png_not_html in E. }
    assert (q ≠ resolve (cwd w) (pjoin (outPath s) (testName s +:+ ".zip")))
      as Hqz.
    { rewrite Ez. unfold q.
      change (cwd w ++ [".screenshots"; id; C.screenshot_name Gen2 n d])
        with (cwd w ++ [".screenshots"; id] ++
              [C.screenshot_name Gen2 n d]).
      rewrite app_assoc, Ea. intros [_ E]%app_inj_tail.
      by apply png_not_zip in E. }
    destruct (writeReport_zip_spec s r w w' Hwf Hrun)
      as (members & Hzip & _ & _ & _ & Honly & _ & _ & _ & Hframe & _).
    split; [exact Hout|]. split.
    { rewrite (Hframe q Hout Hqh Hqz). exact Hq. }
    exists members. split; [exact Hzip|].
    intros name c Hin E. destruct (Honly name c Hin) as [[-> _]|(rel & _ & _ & Hres)].
    + by apply Hqh.
    + apply Hout. rewrite <- E, Hres. by apply prefix_app_r.
Qed.

(** With the default output directory Report: the screenshot of case TC001
    is in ./.screenshots/TC001, outside Report/.screenshots, and is still
    there after the report was archived. *)
Lemma case_screenshots_escape_archive_witness :
  init "Report" "qa" None Sample.w0 = Ok Sample.suite_named Sample.w_named ∧
  ¬ resolve (cwd Sample.w_named_shot) (screenshot_path Sample.suite_named)
      `prefix_of` ["home"; "qa"; ".screenshots"; "TC001"; "1 - login.png"] ∧
  files (fs Sample.w_named_zipped) !!
    ["home"; "qa"; ".screenshots"; "TC001"; "1 - login.png"]
    = Some (Bytes "screen-image").
Proof.
  destruct case_screenshots_escape_archive as (_ & _ & H3).
  split; [vm_compute; reflexivity|].
  destruct (H3 Sample.suite_named Sample.result Sample.w_named_shot
              Sample.w_named_zipped "TC001" 0%nat "login"
              (Bytes "screen-image")) as (Hout & Hkept & _).
  - apply (bool_decide_unpack _). vm_compute. exact I.
  - reflexivity.
  - apply (bool_decide_unpack _). vm_compute. exact I.
  - reflexivity.
  - vm_compute. discriminate.
  - apply (bool_decide_unpack _). vm_compute. exact I.
  - apply (bool_decide_unpack _). vm_compute. exact I.
  - vm_compute. reflexivity.
  - vm_compute. reflexivity.
  - split; [exact Hout|exact Hkept].
Defined.

End Frame.
